(** * Token provider (src/providers/token.ts): a shallow embedding

    The provider fetches security, trade, DEX and holder data of a token
    through a two-tier cache (node-cache in memory, one JSON file per key on
    disk), derives a few analytic signals and renders a report.

    Conventions of the embedding:
    - time is [Date.now()] in milliseconds, a [Z];
    - JavaScript numbers are binary64 floats ([PrimFloat.float]);
    - an [async] method is a state transformer over [World] that either
      returns a value or throws ([Result]);
    - local computation takes no time; time passes while a request is in
      flight (the latency the upstream decides) and while a timer runs;
    - a cache file holds what [JSON.parse] reads back from the text that
      [JSON.stringify] wrote ([viaJson]), and a write of a file succeeds or
      throws as the disk decides ([diskFault]);
    - the files are kept by cache key: [path.join(cacheDir, key + ".json")]
      is a file of its own for every key as long as the key holds no path
      separator ([plainAddress]); the properties that depend on which file
      a key names say so. *)

From Stdlib Require Import ZArith QArith Qround Qabs Floats Ascii.
From stdpp Require Import gmap strings list pretty.
From Equations Require Import Equations.

Set Warnings "-inexact-float".

Local Open Scope string_scope.
Local Open Scope Z_scope.

(** ** Thrown values and results *)

(** What a [throw] or a rejected promise carries: an [Error] with its message,
    or [undefined] (the value of [lastError] before any attempt). *)
Inductive Thrown : Type :=
| JsError (message : string)
| JsUndefined.

Inductive Result (A : Type) : Type :=
| Ok (a : A)
| Throw (e : Thrown).
Arguments Ok {A} a.
Arguments Throw {A} e.

(** ** Values kept as JSON text *)

(** [JSON.parse(JSON.stringify(v))]: what a cache file gives back for the
    value that was written to it. *)
Class Jsonable (V : Type) : Type := viaJson : V → V.

#[global] Instance string_Jsonable : Jsonable string := fun s => s.

(** ** The two-tier cache ([getCachedData], [setCachedData]) *)

Module Cache.

(** [stdTTL: 300] of the constructor, in seconds, and the file tier's
    [300000] milliseconds. *)
Definition stdTTL : Z := 300.
Definition FILE_TTL_MS : Z := 300000.

(** An entry of node-cache: the value and the instant [t] it lives to. *)
Record MemEntry (V : Type) : Type := { m_value : V; m_t : Z }.
Arguments m_value {V} _.
Arguments m_t {V} _.

(** The JSON file [{data, expiry}] that [writeCacheToFile] writes. *)
Record FileEntry (V : Type) : Type := { data : V; expiry : Z }.
Arguments data {V} _.
Arguments expiry {V} _.

(** The provider's [cache] field and the files of [cacheDir] that hold
    values of one kind, both keyed by the cache key
    ([path.join(cacheDir, key + ".json")] is a file of its own for a key
    without a path separator). *)
Record TwoTier (V : Type) : Type := {
  memory : gmap string (MemEntry V);
  files : gmap string (FileEntry V)
}.
Arguments memory {V} _.
Arguments files {V} _.

Section Generic.
Context {V : Type} `{Jsonable V}.

(** JavaScript truthiness of a cached value: [if (cachedData)]. *)
Variable truthy : V → bool.

(** node-cache [get]: a key whose [t] lies in the past is deleted and
    reported missing ([data.t < Date.now()] in the library's check). *)
Definition NodeCache_get (now : Z) (key : string)
    (c : gmap string (MemEntry V)) : option V * gmap string (MemEntry V) :=
  match c !! key with
  | Some e => if m_t e <? now then (None, delete key c) else (Some (m_value e), c)
  | None => (None, c)
  end.

(** node-cache [set] without a ttl argument: lives [stdTTL] seconds. *)
Definition NodeCache_set (now : Z) (key : string) (v : V)
    (c : gmap string (MemEntry V)) : gmap string (MemEntry V) :=
  <[key := {| m_value := v; m_t := now + stdTTL * 1000 |}]> c.

Definition readCacheFromFile (now : Z) (cacheKey : string)
    (fs : gmap string (FileEntry V)) : option V * gmap string (FileEntry V) :=
  match fs !! cacheKey with
  | Some parsed =>
      if now <? expiry parsed then (Some (data parsed), fs)
      else (None, delete cacheKey fs)
  | None => (None, fs)
  end.

(** [fs.writeFileSync] writes the JSON text of [{data, expiry}], or throws
    [fault]; a write that fails is taken to fail before anything reaches
    the file. *)
Definition writeCacheToFile (fault : option Thrown) (now : Z) (cacheKey : string)
    (d : V) (fs : gmap string (FileEntry V))
    : Result unit * gmap string (FileEntry V) :=
  match fault with
  | Some e => (Throw e, fs)
  | None =>
      (Ok tt, <[cacheKey := {| data := viaJson d; expiry := now + FILE_TTL_MS |}]> fs)
  end.

Definition isTruthy (o : option V) : bool :=
  match o with Some v => truthy v | None => false end.

Definition getCachedData (now : Z) (cacheKey : string) (st : TwoTier V)
    : option V * TwoTier V :=
  (* Check in-memory cache first *)
  let '(cachedData, mem1) := NodeCache_get now cacheKey (memory st) in
  if isTruthy cachedData then (cachedData, {| memory := mem1; files := files st |})
  else
    (* Check file-based cache *)
    let '(fileCachedData, fs1) := readCacheFromFile now cacheKey (files st) in
    if isTruthy fileCachedData then
      match fileCachedData with
      | Some d =>
          (* Populate in-memory cache *)
          (Some d, {| memory := NodeCache_set now cacheKey d mem1; files := fs1 |})
      | None => (None, {| memory := mem1; files := fs1 |})
      end
    else (None, {| memory := mem1; files := fs1 |}).

Definition setCachedData (fault : option Thrown) (now : Z) (cacheKey : string)
    (d : V) (st : TwoTier V) : Result unit * TwoTier V :=
  (* Set in-memory cache *)
  let mem1 := NodeCache_set now cacheKey d (memory st) in
  (* Write to file-based cache *)
  let '(written, fs1) := writeCacheToFile fault now cacheKey d (files st) in
  (written, {| memory := mem1; files := fs1 |}).

(** A new [TokenProvider] starts with an empty node-cache over the same
    [cacheDir]. *)
Definition newInstance (st : TwoTier V) : TwoTier V :=
  {| memory := ∅; files := files st |}.

End Generic.

End Cache.

(** ** JavaScript numbers *)

Module JsNumber.

Definition pow10 (p : Z) : Q := Qpower (10 # 1) p.
Definition pow2 (p : Z) : Q := Qpower (2 # 1) p.
Definition Qltb (a b : Q) : bool :=
  match Qcompare a b with Lt => true | _ => false end.
Definition Qleb (a b : Q) : bool :=
  match Qcompare a b with Gt => false | _ => true end.

(** The [n] with [10^(n-1) <= x < 10^n], for a positive [x]. *)
Fixpoint findUp (fuel : nat) (x : Q) (n : Z) : Z :=
  match fuel with
  | O => n
  | S f => if Qltb x (pow10 n) then n else findUp f x (n + 1)
  end.
Fixpoint findDown (fuel : nat) (x : Q) (n : Z) : Z :=
  match fuel with
  | O => n
  | S f => if Qleb (pow10 (n - 1)) x then n else findDown f x (n - 1)
  end.
Definition decimalExponent (x : Q) : Z :=
  if Qleb 1 x then findUp 400 x 1 else findDown 400 x 0.

(** The reals that round to the double [m * 2^e] lie between the midpoints
    to its two neighbours; the midpoints themselves round to it when [m] is
    even. *)
Definition roundingInterval (m : positive) (e : Z) : Q * Q :=
  let hi := (inject_Z (2 * Z.pos m + 1) * pow2 (e - 1))%Q in
  let lo := if (Z.pos m =? 2 ^ 52) && (-1074 <? e)
            then (inject_Z (4 * Z.pos m - 1) * pow2 (e - 2))%Q
            else (inject_Z (2 * Z.pos m - 1) * pow2 (e - 1))%Q in
  (lo, hi).

Definition roundsTo (m : positive) (e : Z) (c : Q) : bool :=
  let '(lo, hi) := roundingInterval m e in
  if Z.even (Z.pos m) then Qleb lo c && Qleb c hi else Qltb lo c && Qltb c hi.

(** Among the decimals [s * 10^(n-k)] of [k] digits that round to [x], the
    one closest to [x] (the even [s] on a tie), as [(s, n)]. *)
Definition candidate (m : positive) (e : Z) (x : Q) (n0 k : Z) : option (Z * Z) :=
  let scale := pow10 (n0 - k) in
  let sLo := Qfloor (x / scale)%Q in
  let sHi := sLo + 1 in
  let okLo := (10 ^ (k - 1) <=? sLo) && roundsTo m e (inject_Z sLo * scale)%Q in
  let okHi := roundsTo m e (inject_Z sHi * scale)%Q in
  let lo := (sLo, n0) in
  let hi := if sHi =? 10 ^ k then (10 ^ (k - 1), n0 + 1) else (sHi, n0) in
  match okLo, okHi with
  | true, true =>
      match Qcompare (x - inject_Z sLo * scale)%Q (inject_Z sHi * scale - x)%Q with
      | Lt => Some lo
      | Gt => Some hi
      | Eq => if Z.even sLo then Some lo else Some hi
      end
  | true, false => Some lo
  | false, true => Some hi
  | false, false => None
  end.

(** The least number of digits [k] that identifies the double: [(s, n, k)]. *)
Fixpoint shortest (fuel : nat) (m : positive) (e : Z) (x : Q) (n0 k : Z) : Z * Z * Z :=
  match candidate m e x n0 k with
  | Some (s, n) => (s, n, k)
  | None =>
      match fuel with
      | O => (0, 0, 0)
      | S f => shortest f m e x n0 (k + 1)
      end
  end.

Definition take_str (n : nat) (s : string) : string := String.substring 0 n s.
Definition drop_str (n : nat) (s : string) : string :=
  String.substring n (String.length s - n) s.
Definition zeros (n : Z) : string := String.concat "" (replicate (Z.to_nat n) "0").

(** The notation of ECMAScript's Number::toString for the digits [s], [k] of
    them, with the decimal point after the [n]-th. *)
Definition render (s n k : Z) : string :=
  let ds := pretty (Z.to_N s) in
  if (k <=? n) && (n <=? 21) then ds ++ zeros (n - k)
  else if (0 <? n) && (n <=? 21) then
    take_str (Z.to_nat n) ds ++ "." ++ drop_str (Z.to_nat n) ds
  else if (-6 <? n) && (n <=? 0) then "0." ++ zeros (- n) ++ ds
  else
    let ex := (if 0 <=? n - 1 then "+" else "-") ++ pretty (Z.to_N (Z.abs (n - 1))) in
    if k =? 1 then ds ++ "e" ++ ex
    else take_str 1 ds ++ "." ++ drop_str 1 ds ++ "e" ++ ex.

(** [String(x)] of a number: the shortest decimal that reads back as [x]. *)
Definition toString (x : float) : string :=
  match Prim2SF x with
  | S754_nan => "NaN"
  | S754_zero _ => "0"
  | S754_infinity sg => if sg then "-Infinity" else "Infinity"
  | S754_finite sg m e =>
      let q := (inject_Z (Z.pos m) * pow2 e)%Q in
      let '(s, n, k) := shortest 17 m e q (decimalExponent q) 1 in
      (if sg then "-" else "") ++ render s n k
  end.

End JsNumber.

(** A field of an upstream payload that the provider only prints or hands to
    [BigNumber]: a number, a string, [null] or [undefined]. *)
Inductive JsValue : Type :=
| JsNum (x : float)
| JsStr (s : string)
| JsNull
| JsUndef.

(** A field that is read as a number when present. *)
Inductive Nullable (A : Type) : Type :=
| Undefined
| Null
| Present (a : A).
Arguments Undefined {A}.
Arguments Null {A}.
Arguments Present {A} a.

(** [`${v}`] in a template literal. *)
Definition interpolate (v : JsValue) : string :=
  match v with
  | JsNum x => JsNumber.toString x
  | JsStr s => s
  | JsNull => "null"
  | JsUndef => "undefined"
  end.

(** ** bignumber.js, default configuration

    [DECIMAL_PLACES = 20], [ROUNDING_MODE = ROUND_HALF_UP], no [DEBUG]: the
    constructor never throws and yields [NaN] on what it cannot read. A value
    is [NaN], an infinity or an exact decimal, kept as a rational. The
    constructor reads the decimal notation (with optional fraction and
    exponent), [Infinity] and [NaN], each with white space around it or a
    plus sign before it, and the notations with a radix prefix ([0x], [0b],
    [0o]). Two things the library does are not in this model: it tells
    negative zero from zero, and it takes a number whose exponent is beyond
    [1e9] for an infinity or for zero. The properties that compute with
    [BigNumber] are stated for numbers where neither matters
    ([plainNumber]). *)

Module BigNumber.

Inductive t : Type :=
| NaN
| Infinity (negative : bool)
| Finite (q : Q).

Definition DECIMAL_PLACES : Z := 20.

Definition isDigit (c : ascii) : bool :=
  let n := nat_of_ascii c in (48 <=? n)%nat && (n <=? 57)%nat.

Fixpoint spanDigits (l : list ascii) : list ascii * list ascii :=
  match l with
  | c :: r =>
      if isDigit c then let '(ds, rest) := spanDigits r in (c :: ds, rest)
      else ([], l)
  | [] => ([], [])
  end.

Definition digitsValue (ds : list ascii) : Z :=
  fold_left (fun acc c => 10 * acc + (Z.of_nat (nat_of_ascii c) - 48)) ds 0.

Definition isEmpty (l : list ascii) : bool :=
  match l with [] => true | _ => false end.

Definition allDigits (l : list ascii) : option Z :=
  let '(ds, rest) := spanDigits l in
  if isEmpty ds || negb (isEmpty rest) then None else Some (digitsValue ds).

(** The optional exponent: [e], an optional sign, digits; then the end. *)
Definition parseExponent (l : list ascii) : option Z :=
  match l with
  | [] => Some 0
  | c :: r =>
      if (Ascii.eqb c "e" || Ascii.eqb c "E")%char then
        match r with
        | "-"%char :: r' => Z.opp <$> allDigits r'
        | "+"%char :: r' => allDigits r'
        | _ => allDigits r
        end
      else None
  end.

(** Digits with an optional fraction, or a fraction alone, followed by the
    exponent. *)
Definition parseUnsigned (l : list ascii) : option Q :=
  let '(ip, r1) := spanDigits l in
  let '(fp, r2, okMantissa) :=
    match r1 with
    | "."%char :: r =>
        let '(fp, r2) := spanDigits r in (fp, r2, negb (isEmpty ip) || negb (isEmpty fp))
    | _ => ([], r1, negb (isEmpty ip))
    end in
  if okMantissa then
    ex ← parseExponent r2;
    Some (Qred (inject_Z (digitsValue (ip ++ fp))
                * JsNumber.pow10 (ex - Z.of_nat (length fp))))
  else None.

(** The value of a text that [isNumeric] accepts: an optional minus sign,
    digits with an optional fraction or a fraction alone, and an optional
    exponent. *)
Definition decimal (l : list ascii) : option Q :=
  match l with
  | "-"%char :: r => (fun q => Qred (- q)) <$> parseUnsigned r
  | _ => parseUnsigned l
  end.

(** [\s] of a regular expression, on the UTF-8 bytes of a text: the number
    of bytes of the white space at the head, 0 when there is none. *)
Definition spaceAt (l : list ascii) : nat :=
  match N_of_ascii <$> l with
  | c :: r =>
      if ((9 <=? c) && (c <=? 13) || (c =? 32))%N then 1%nat
      else
        match r with
        | c1 :: r1 =>
            if ((c =? 194) && (c1 =? 160))%N then 2%nat
            else
              match r1 with
              | c2 :: _ =>
                  if ((c =? 225) && (c1 =? 154) && (c2 =? 128))%N then 3%nat
                  else if ((c =? 226) && (c1 =? 128)
                           && ((128 <=? c2) && (c2 <=? 138) || (c2 =? 168)
                               || (c2 =? 169) || (c2 =? 175)))%N then 3%nat
                  else if ((c =? 226) && (c1 =? 129) && (c2 =? 159))%N then 3%nat
                  else if ((c =? 227) && (c1 =? 128) && (c2 =? 128))%N then 3%nat
                  else if ((c =? 239) && (c1 =? 187) && (c2 =? 191))%N then 3%nat
                  else 0%nat
              | [] => 0%nat
              end
        | [] => 0%nat
        end
  | [] => 0%nat
  end.

Fixpoint dropSpaces (fuel : nat) (l : list ascii) : list ascii :=
  match fuel with
  | O => l
  | S f =>
      match spaceAt l with
      | O => l
      | n => dropSpaces f (drop n l)
      end
  end.

Definition onlySpaces (l : list ascii) : bool := isEmpty (dropSpaces (length l) l).

Fixpoint dropSpacesAtEnd (l : list ascii) : list ascii :=
  match l with
  | [] => []
  | c :: r => if onlySpaces l then [] else c :: dropSpacesAtEnd r
  end.

(** [\w] *)
Definition isWord (c : ascii) : bool :=
  let n := N_of_ascii c in
  ((48 <=? n) && (n <=? 57) || (65 <=? n) && (n <=? 90)
   || (97 <=? n) && (n <=? 122) || (n =? 95))%N.

Definition isDot (c : ascii) : bool := Ascii.eqb c ".".

(** [str.replace(/^\s*\+(?=[\w.])|^\s+|\s+$/g, '')] *)
Definition withoutBlanksAndPlus (l : list ascii) : list ascii :=
  let lead := dropSpaces (length l) l in
  dropSpacesAtEnd
    match lead with
    | "+"%char :: c :: r => if isWord c || isDot c then c :: r else lead
    | _ => lead
    end.

(** [/^(-?)0([xbo])(?=\w[\w.]*$)/i]: the sign, the radix and the digits. *)
Definition basePrefix (l : list ascii) : option (list ascii * Z * list ascii) :=
  let '(sign, r) :=
    match l with
    | "-"%char :: r => (["-"%char], r)
    | _ => ([], l)
    end in
  match r with
  | "0"%char :: p :: (c :: _) as digits =>
      let radix :=
        if (Ascii.eqb p "x" || Ascii.eqb p "X")%char then Some 16
        else if (Ascii.eqb p "b" || Ascii.eqb p "B")%char then Some 2
        else if (Ascii.eqb p "o" || Ascii.eqb p "O")%char then Some 8
        else None in
      match radix with
      | Some b =>
          if isWord c && forallb (fun c => isWord c || isDot c) digits
          then Some (sign, b, digits) else None
      | None => None
      end
  | _ => None
  end.

(** The place of a character in [0123456789abcdefghijklmnopqrstuvwxyz]
    when it is below the radix. *)
Definition digitIn (radix : Z) (c : ascii) : option Z :=
  let n := Z.of_N (N_of_ascii c) in
  let v := if (48 <=? n) && (n <=? 57) then Some (n - 48)
           else if (97 <=? n) && (n <=? 122) then Some (n - 87)
           else None in
  match v with
  | Some d => if d <? radix then Some d else None
  | None => None
  end.

Inductive Scan : Type := Valid | BadDot | BadChar.

(** The check of the digits of a number in a given radix: one point, not
    before the first digit. *)
Fixpoint scan (radix : Z) (first seenDot : bool) (l : list ascii) : Scan :=
  match l with
  | [] => Valid
  | c :: r =>
      match digitIn radix c with
      | Some _ => scan radix false seenDot r
      | None =>
          if isDot c then
            if first || seenDot then BadDot else scan radix false true r
          else BadChar
      end
  end.

Definition lowerCase (c : ascii) : ascii :=
  let n := N_of_ascii c in
  if ((65 <=? n) && (n <=? 90))%N then ascii_of_N (n + 32) else c.
Definition upperCase (c : ascii) : ascii :=
  let n := N_of_ascii c in
  if ((97 <=? n) && (n <=? 122))%N then ascii_of_N (n - 32) else c.

Definition sameText (a b : list ascii) : bool :=
  String.eqb (String.string_of_list_ascii a) (String.string_of_list_ascii b).

(** The digits before the first point and those after it. *)
Fixpoint atPoint (l : list ascii) : list ascii * list ascii :=
  match l with
  | [] => ([], [])
  | c :: r => if isDot c then ([], r) else let '(ip, fp) := atPoint r in (c :: ip, fp)
  end.

Definition radixValue (radix : Z) (l : list ascii) : Q :=
  let '(ip, fp) := atPoint l in
  let n := fold_left (fun acc c => radix * acc + default 0 (digitIn radix c)) (ip ++ fp) 0 in
  (inject_Z n / inject_Z (radix ^ Z.of_nat (length fp)))%Q.

(** Round half up (away from zero on a tie) to [dp] decimal places, as the
    integer number of units of [10^-dp] of the magnitude. *)
Definition roundHalfUp (dp : Z) (q : Q) : Z :=
  Qfloor (Qabs q * JsNumber.pow10 dp + (1 # 2)).

(** [new BigNumber(str, radix)] for a radix other than 10, when the digits
    pass the check: upper case is read as lower case when the text is all
    in one case; the value is rounded to [DECIMAL_PLACES]. *)
Definition inRadix (radix : Z) (l : list ascii) : option Q :=
  let '(negative, digits) :=
    match l with
    | "-"%char :: r => (true, r)
    | _ => (false, l)
    end in
  let read ds :=
    let q := (inject_Z (roundHalfUp DECIMAL_PLACES (radixValue radix ds))
              * JsNumber.pow10 (- DECIMAL_PLACES))%Q in
    Some (Qred (if negative then - q else q)) in
  match scan radix true false digits with
  | Valid => read digits
  | BadDot => None
  | BadChar =>
      let changed :=
        if sameText digits (upperCase <$> digits) then Some (lowerCase <$> digits)
        else if sameText digits (lowerCase <$> digits) then Some (upperCase <$> digits)
        else None in
      match changed with
      | Some ds => match scan radix true false ds with Valid => read ds | _ => None end
      | None => None
      end
  end.

Definition hasDot (l : list ascii) : bool := existsb isDot l.

(** [s.replace(/^([^.]+)\.$/, '$1').replace(/^\.([^.]+)$/, '0.$1')] *)
Definition tidyDots (l : list ascii) : list ascii :=
  let l1 :=
    match reverse l with
    | "."%char :: (_ :: _) as r => if hasDot r then l else reverse r
    | _ => l
    end in
  match l1 with
  | "."%char :: (_ :: _) as r => if hasDot r then l1 else ("0" :: "." :: r)%char
  | _ => l1
  end.

(** The constructor on a text and an optional radix: the text is read as
    it stands, or [parseNumeric] takes away blanks, plus sign and radix
    prefix and the constructor reads what is left. *)
Fixpoint construct (fuel : nat) (str : list ascii) (radix : option Z) : t :=
  match match radix with
        | None => decimal str
        | Some b => inRadix b str
        end with
  | Some q => Finite q
  | None =>
      let s := withoutBlanksAndPlus str in
      let text := String.string_of_list_ascii s in
      if String.eqb text "NaN" || String.eqb text "-NaN" then NaN
      else if String.eqb text "Infinity" then Infinity false
      else if String.eqb text "-Infinity" then Infinity true
      else
        let '(s1, found) :=
          match basePrefix s with
          | Some (sign, b, digits) =>
              match radix with
              | None => ((sign ++ digits)%list, Some b)
              | Some b' => if b' =? b then ((sign ++ digits)%list, Some b) else (s, Some b)
              end
          | None => (s, None)
          end in
        let '(s2, base) :=
          match radix with
          | Some b => (tidyDots s1, Some b)
          | None => (s1, found)
          end in
        if sameText str s2 then NaN
        else
          match fuel with
          | O => NaN
          | S f => construct f s2 base
          end
  end.

(** [new BigNumber(s)] of a string. *)
Definition ofString (s : string) : t :=
  construct (String.length s) (String.list_ascii_of_string s) None.

(** A number is read through its [String]. *)
Definition ofNumber (x : float) : t := ofString (JsNumber.toString x).

(** [new BigNumber(v)] *)
Definition make (v : JsValue) : t :=
  match v with
  | JsNum x => ofNumber x
  | JsStr s => ofString s
  | JsNull | JsUndef => NaN
  end.

Definition isZero (q : Q) : bool := Qeq_bool q 0.
Definition isNegative (q : Q) : bool := JsNumber.Qltb q 0.

Definition multipliedBy (x y : t) : t :=
  match x, y with
  | NaN, _ | _, NaN => NaN
  | Infinity a, Infinity b => Infinity (xorb a b)
  | Infinity a, Finite q | Finite q, Infinity a =>
      if isZero q then NaN else Infinity (xorb a (isNegative q))
  | Finite a, Finite b => Finite (Qred (a * b))
  end.

Definition plus (x y : t) : t :=
  match x, y with
  | NaN, _ | _, NaN => NaN
  | Infinity a, Infinity b => if Bool.eqb a b then Infinity a else NaN
  | Infinity a, Finite _ | Finite _, Infinity a => Infinity a
  | Finite a, Finite b => Finite (Qred (a + b))
  end.

Definition signed (negative : bool) (q : Q) : Q :=
  if negative then Qred (- q) else Qred q.

Definition dividedBy (x y : t) : t :=
  match x, y with
  | NaN, _ | _, NaN => NaN
  | Infinity _, Infinity _ => NaN
  | Infinity a, Finite q => Infinity (xorb a (isNegative q))
  | Finite _, Infinity _ => Finite 0
  | Finite a, Finite b =>
      if isZero b then (if isZero a then NaN else Infinity (isNegative a))
      else
        let q := (a / b)%Q in
        Finite (signed (isNegative q)
                  (inject_Z (roundHalfUp DECIMAL_PLACES q) * JsNumber.pow10 (- DECIMAL_PLACES)))
  end.

Definition isGreaterThan (x y : t) : bool :=
  match x, y with
  | NaN, _ | _, NaN => false
  | Infinity a, Infinity b => negb a && b
  | Infinity a, Finite _ => negb a
  | Finite _, Infinity b => b
  | Finite a, Finite b => JsNumber.Qltb b a
  end.

Definition padLeft (n : nat) (s : string) : string :=
  String.concat "" (replicate (n - String.length s) "0") ++ s.

(** [x.toFixed(dp)]: normal notation, rounded to [dp] places. *)
Definition toFixed (dp : nat) (x : t) : string :=
  match x with
  | NaN => "NaN"
  | Infinity negative => if negative then "-Infinity" else "Infinity"
  | Finite q =>
      let ds := padLeft (S dp) (pretty (Z.to_N (roundHalfUp (Z.of_nat dp) q))) in
      let whole := JsNumber.take_str (String.length ds - dp) ds in
      let frac := JsNumber.drop_str (String.length ds - dp) ds in
      (if isNegative q then "-" else "")
        ++ whole ++ (if Nat.eqb dp 0 then "" else "." ++ frac)
  end.

End BigNumber.

(** ** Data model *)

(** Modelled from the spec: the declarations of [../types/token] are not among
    the sources. A record keeps the fields the provider reads; a field the
    provider only prints or passes to [BigNumber] is a [JsValue], a field it
    computes with as a number is a [Nullable float]. The provider copies the
    other fields of the trade payload one by one and never reads them. *)
Record TokenSecurityData : Type := {
  ownerBalance : JsValue;
  creatorBalance : JsValue;
  ownerPercentage : JsValue;
  creatorPercentage : JsValue;
  top10HolderBalance : JsValue;
  top10HolderPercent : JsValue
}.

Record TokenTradeData : Type := {
  holder : JsValue;
  price : JsValue;
  price_change_12h_percent : JsValue;
  price_change_24h_percent : JsValue;
  unique_wallet_24h : JsValue;
  volume_24h_usd : JsValue;
  unique_wallet_30m_change_percent : Nullable float;
  unique_wallet_1h_change_percent : Nullable float;
  unique_wallet_2h_change_percent : Nullable float;
  unique_wallet_4h_change_percent : Nullable float;
  unique_wallet_8h_change_percent : Nullable float;
  unique_wallet_24h_change_percent : Nullable float
}.

Record Volume : Type := { h24 : JsValue }.
Record Liquidity : Type := { usd : JsValue }.
Record Boosts : Type := { active : Nullable float }.

(** [volume] and [liquidity] may be missing from an upstream pair or be
    [null]: reading a field of either throws. *)
Record DexScreenerPair : Type := {
  dexId : JsValue;
  url : JsValue;
  priceUsd : JsValue;
  volume : Nullable Volume;
  liquidity : Nullable Liquidity;
  boosts : Nullable Boosts
}.

Record DexScreenerData : Type := {
  schemaVersion : JsValue;
  pairs : list DexScreenerPair
}.

Record HolderData : Type := { address : string; balance : string }.

Record HighValueHolder : Type := { holderAddress : string; balanceUsd : string }.

Record ProcessedTokenData : Type := {
  security : TokenSecurityData;
  tradeData : TokenTradeData;
  holderDistributionTrend : string;
  highValueHolders : list HighValueHolder;
  recentTrades : bool;
  highSupplyHoldersCount : nat;
  dexScreenerData : DexScreenerData;
  isDexScreenerListed : bool;
  isDexScreenerPaid : bool
}.

(** ** The data as JSON text

    [JSON.stringify] writes [null] for a number that is not finite and [0]
    for negative zero, and leaves out a field that is [undefined], which
    reads back as [undefined]; strings, [null] and finite numbers come back
    as they were. *)

Definition jsonNumber (x : float) : option float :=
  match Prim2SF x with
  | S754_nan | S754_infinity _ => None
  | S754_zero _ => Some 0%float
  | S754_finite _ _ _ => Some x
  end.

#[global] Instance JsValue_Jsonable : Jsonable JsValue := fun v =>
  match v with
  | JsNum x => match jsonNumber x with Some y => JsNum y | None => JsNull end
  | JsStr s => JsStr s
  | JsNull => JsNull
  | JsUndef => JsUndef
  end.

Definition viaJsonNumber (v : Nullable float) : Nullable float :=
  match v with
  | Present x => match jsonNumber x with Some y => Present y | None => Null end
  | Null => Null
  | Undefined => Undefined
  end.

Definition viaJsonField {A} `{Jsonable A} (v : Nullable A) : Nullable A :=
  match v with
  | Present a => Present (viaJson a)
  | Null => Null
  | Undefined => Undefined
  end.

#[global] Instance TokenSecurityData_Jsonable : Jsonable TokenSecurityData := fun d =>
  {| ownerBalance := viaJson (ownerBalance d);
     creatorBalance := viaJson (creatorBalance d);
     ownerPercentage := viaJson (ownerPercentage d);
     creatorPercentage := viaJson (creatorPercentage d);
     top10HolderBalance := viaJson (top10HolderBalance d);
     top10HolderPercent := viaJson (top10HolderPercent d) |}.

#[global] Instance TokenTradeData_Jsonable : Jsonable TokenTradeData := fun d =>
  {| holder := viaJson (holder d);
     price := viaJson (price d);
     price_change_12h_percent := viaJson (price_change_12h_percent d);
     price_change_24h_percent := viaJson (price_change_24h_percent d);
     unique_wallet_24h := viaJson (unique_wallet_24h d);
     volume_24h_usd := viaJson (volume_24h_usd d);
     unique_wallet_30m_change_percent :=
       viaJsonNumber (unique_wallet_30m_change_percent d);
     unique_wallet_1h_change_percent :=
       viaJsonNumber (unique_wallet_1h_change_percent d);
     unique_wallet_2h_change_percent :=
       viaJsonNumber (unique_wallet_2h_change_percent d);
     unique_wallet_4h_change_percent :=
       viaJsonNumber (unique_wallet_4h_change_percent d);
     unique_wallet_8h_change_percent :=
       viaJsonNumber (unique_wallet_8h_change_percent d);
     unique_wallet_24h_change_percent :=
       viaJsonNumber (unique_wallet_24h_change_percent d) |}.

#[global] Instance Volume_Jsonable : Jsonable Volume := fun v =>
  {| h24 := viaJson (h24 v) |}.

#[global] Instance Liquidity_Jsonable : Jsonable Liquidity := fun l =>
  {| usd := viaJson (usd l) |}.

#[global] Instance Boosts_Jsonable : Jsonable Boosts := fun b =>
  {| active := viaJsonNumber (active b) |}.

#[global] Instance DexScreenerPair_Jsonable : Jsonable DexScreenerPair := fun p =>
  {| dexId := viaJson (dexId p);
     url := viaJson (url p);
     priceUsd := viaJson (priceUsd p);
     volume := viaJsonField (volume p);
     liquidity := viaJsonField (liquidity p);
     boosts := viaJsonField (boosts p) |}.

#[global] Instance DexScreenerData_Jsonable : Jsonable DexScreenerData := fun d =>
  {| schemaVersion := viaJson (schemaVersion d);
     pairs := map viaJson (pairs d) |}.

(** A holder is two strings. *)
#[global] Instance HolderList_Jsonable : Jsonable (list HolderData) := fun l => l.

(** ** Upstream payloads, requests and responses *)

(** The Birdeye envelope [{success, data}]. *)
Record Envelope (T : Type) : Type := { success : bool; payload : option T }.
Arguments success {T} _.
Arguments payload {T} _.

Record DexBody : Type := {
  body_schemaVersion : JsValue;
  body_pairs : option (list DexScreenerPair)
}.

(** An entry of [result.token_accounts]; [amount] is a JSON number. *)
Record TokenAccount : Type := { owner : string; amount : float }.

Record HeliusResult : Type := {
  token_accounts : option (list TokenAccount);
  cursor : option string
}.

Record HeliusBody : Type := { result : option HeliusResult }.

(** What [response.json()] resolves to. [JsonOther] is any JSON value
    without the fields a caller looks for ([null], a number, an error
    object); a body of one endpoint's shape read by another endpoint's caller
    is treated the same way. *)
Inductive Json : Type :=
| JsonSecurity (e : Envelope TokenSecurityData)
| JsonTrade (e : Envelope TokenTradeData)
| JsonDex (b : DexBody)
| JsonHelius (b : HeliusBody)
| JsonOther.

Inductive RequestBody : Type :=
| NoBody
| GetTokenAccounts (limit : Z) (mint : string) (cursor : option string).

Record RequestInit : Type := {
  init_method : option string;
  init_headers : gmap string string;
  init_body : RequestBody
}.

Record Request : Type := { req_url : string; req_init : RequestInit }.

Record Response : Type := {
  ok : bool;
  status : Z;
  text : Result string;
  json : Result Json
}.

Inductive Outcome : Type :=
| Rejected (e : Thrown)
| Resolved (r : Response).

Record Exchange : Type := { latency : N; outcome : Outcome }.

Inductive Event : Type :=
| EvFetch (r : Request)
| EvTimeout (ms : Z).

(** ** The world an instance runs in *)

(** [upstream n r] is what the [n]-th request of the run meets when it is
    [r], and [diskFault n key] what the [n]-th [writeFileSync] of the run
    throws when it writes the file of [key] ([None]: the file is written).
    The four stores are the provider's node-cache and cache directory, split
    by key prefix ([tokenSecurity_], [tokenTradeData_], [dexScreenerData_],
    [holderList_]): keys of different prefixes never coincide, and their
    files are different files when the token address is a [plainAddress]. *)
Record World : Type := {
  now : Z;
  securityStore : Cache.TwoTier TokenSecurityData;
  tradeStore : Cache.TwoTier TokenTradeData;
  dexStore : Cache.TwoTier DexScreenerData;
  holderStore : Cache.TwoTier (list HolderData);
  upstream : nat → Request → Exchange;
  calls : nat;
  trace : list Event;
  diskFault : nat → string → option Thrown;
  writes : nat
}.

Definition M (A : Type) : Type := World → Result A * World.

Definition ret {A} (a : A) : M A := fun w => (Ok a, w).
Definition throw {A} (e : Thrown) : M A := fun w => (Throw e, w).
Definition bind {A B} (m : M A) (k : A → M B) : M B :=
  fun w => match m w with
           | (Ok a, w1) => k a w1
           | (Throw e, w1) => (Throw e, w1)
           end.
Definition tryCatch {A} (m : M A) (handler : Thrown → M A) : M A :=
  fun w => match m w with
           | (Ok a, w1) => (Ok a, w1)
           | (Throw e, w1) => handler e w1
           end.
Definition liftResult {A} (r : Result A) : M A := fun w => (r, w).

Notation "'let*' x := m 'in' k" := (bind m (fun x => k))
  (at level 10, x binder, m at level 100, k at level 200).

Definition setNowCallsTrace (t : Z) (c : nat) (tr : list Event) (w : World) : World :=
  {| now := t; securityStore := securityStore w; tradeStore := tradeStore w;
     dexStore := dexStore w; holderStore := holderStore w;
     upstream := upstream w; calls := c; trace := tr;
     diskFault := diskFault w; writes := writes w |}.

(** [fetch(url, init)]: the request goes out, time passes, the promise
    settles. *)
Definition fetch (r : Request) : M Response :=
  fun w =>
    let ex := upstream w (calls w) r in
    let w1 := setNowCallsTrace (now w + Z.of_N (latency ex)) (S (calls w))
                (trace w ++ [EvFetch r]) w in
    match outcome ex with
    | Rejected e => (Throw e, w1)
    | Resolved resp => (Ok resp, w1)
    end.

(** [await new Promise((resolve) => setTimeout(resolve, delay))] *)
Definition sleep (delay : Z) : M unit :=
  fun w => (Ok tt, setNowCallsTrace (now w + delay) (calls w)
                     (trace w ++ [EvTimeout delay]) w).

(** One of the four stores inside the world. *)
Record StoreLens (V : Type) : Type := {
  getStore : World → Cache.TwoTier V;
  putStore : Cache.TwoTier V → World → World
}.
Arguments getStore {V} _ _.
Arguments putStore {V} _ _ _.

Definition securityLens : StoreLens TokenSecurityData :=
  {| getStore := securityStore;
     putStore st w :=
       {| now := now w; securityStore := st; tradeStore := tradeStore w;
          dexStore := dexStore w; holderStore := holderStore w;
          upstream := upstream w; calls := calls w; trace := trace w;
          diskFault := diskFault w; writes := writes w |} |}.

Definition tradeLens : StoreLens TokenTradeData :=
  {| getStore := tradeStore;
     putStore st w :=
       {| now := now w; securityStore := securityStore w; tradeStore := st;
          dexStore := dexStore w; holderStore := holderStore w;
          upstream := upstream w; calls := calls w; trace := trace w;
          diskFault := diskFault w; writes := writes w |} |}.

Definition dexLens : StoreLens DexScreenerData :=
  {| getStore := dexStore;
     putStore st w :=
       {| now := now w; securityStore := securityStore w; tradeStore := tradeStore w;
          dexStore := st; holderStore := holderStore w;
          upstream := upstream w; calls := calls w; trace := trace w;
          diskFault := diskFault w; writes := writes w |} |}.

Definition holderLens : StoreLens (list HolderData) :=
  {| getStore := holderStore;
     putStore st w :=
       {| now := now w; securityStore := securityStore w; tradeStore := tradeStore w;
          dexStore := dexStore w; holderStore := st;
          upstream := upstream w; calls := calls w; trace := trace w;
          diskFault := diskFault w; writes := writes w |} |}.

(** Every value the provider caches is an object or an array: truthy. *)
Definition objectTruthy {V} (_ : V) : bool := true.

Definition getCachedData {V} (L : StoreLens V) (cacheKey : string) : M (option V) :=
  fun w =>
    let '(r, st) := Cache.getCachedData objectTruthy (now w) cacheKey (getStore L w) in
    (Ok r, putStore L st w).

(** The world after one more [writeFileSync]. *)
Definition written (w : World) : World :=
  {| now := now w; securityStore := securityStore w; tradeStore := tradeStore w;
     dexStore := dexStore w; holderStore := holderStore w;
     upstream := upstream w; calls := calls w; trace := trace w;
     diskFault := diskFault w; writes := S (writes w) |}.

Definition setCachedData {V} `{Jsonable V} (L : StoreLens V) (cacheKey : string) (d : V)
    : M unit :=
  fun w =>
    let '(r, st) :=
      Cache.setCachedData (diskFault w (writes w) cacheKey) (now w) cacheKey d
        (getStore L w) in
    (r, written (putStore L st w)).

(** ** The holder map ([Map<string, number>]) *)

(** A JavaScript [Map] keeps its keys in insertion order; [entries()] lists
    them in that order. *)
Section HolderMap.
Context {num : Type}.
Variable add : num → num → num.

Fixpoint Map_get (m : list (string * num)) (k : string) : option num :=
  match m with
  | [] => None
  | (k', v) :: r => if decide (k' = k) then Some v else Map_get r k
  end.

Fixpoint Map_set (m : list (string * num)) (k : string) (v : num)
    : list (string * num) :=
  match m with
  | [] => [(k, v)]
  | (k', v') :: r =>
      if decide (k' = k) then (k, v) :: r else (k', v') :: Map_set r k v
  end.

(** The body of the [forEach]: [has] and [get] read the same entry. *)
Definition accumulate (m : list (string * num)) (owner : string) (balance : num)
    : list (string * num) :=
  match Map_get m owner with
  | Some held => Map_set m owner (add held balance)
  | None => Map_set m owner balance
  end.

Definition mergePage (page : list (string * num)) (m : list (string * num))
    : list (string * num) :=
  fold_left (fun m '(owner, balance) => accumulate m owner balance) page m.

(** The amounts of [k] in [page], added one after the other onto [init]. *)
Definition runningSum (k : string) (page : list (string * num)) (init : option num)
    : option num :=
  fold_left
    (fun acc '(owner, balance) =>
       if decide (owner = k)
       then Some (match acc with Some held => add held balance | None => balance end)
       else acc)
    page init.

End HolderMap.

(** [parseFloat] of a JSON number: the number itself, negative zero read
    back as zero (its [String] is ["0"]). *)
Definition parseFloat (x : float) : float :=
  if PrimFloat.eqb x 0%float then 0%float else x.

Definition processAccounts (accounts : list TokenAccount)
    (allHoldersMap : list (string * float)) : list (string * float) :=
  fold_left
    (fun m account =>
       let owner := owner account in
       let balance := parseFloat (amount account) in
       accumulate PrimFloat.add m owner balance)
    accounts allHoldersMap.

Definition materialize (allHoldersMap : list (string * float)) : list HolderData :=
  map (fun '(address, balance) =>
         {| address := address; balance := JsNumber.toString balance |})
      allHoldersMap.

(** ** The provider *)

Module PROVIDER_CONFIG.
Definition BIRDEYE_API : string := "https://public-api.birdeye.so".
Definition MAX_RETRIES : Z := 3.
Definition RETRY_DELAY : Z := 2000.
Definition TOKEN_SECURITY_ENDPOINT : string := "/defi/token_security?address=".
Definition TOKEN_TRADE_DATA_ENDPOINT : string :=
  "/defi/v3/token/trade-data/single?address=".
End PROVIDER_CONFIG.

Record Settings : Type := {
  BIRDEYE_API_KEY : option string;
  HELIOUS_API_KEY : option string
}.

(** [key || ""] *)
Definition orEmpty (key : option string) : string := default "" key.

Definition noOptions : RequestInit :=
  {| init_method := None; init_headers := ∅; init_body := NoBody |}.

Section TokenProvider.

Variable settings : Settings.
Variable tokenAddress : string.

(** The request [fetchWithRetry] sends: the caller's options, with the
    headers of the caller laid over the three the fetcher always sets. *)
Definition retryRequest (url : string) (options : RequestInit) : Request :=
  {| req_url := url;
     req_init :=
       {| init_method := init_method options;
          init_headers :=
            init_headers options
              ∪ {[ "Accept" := "application/json";
                   "x-chain" := "solana";
                   "X-API-KEY" := orEmpty (BIRDEYE_API_KEY settings) ]};
          init_body := init_body options |} |}.

(** One attempt of [fetchWithRetry]: the body of its [try]. *)
Definition attempt (url : string) (options : RequestInit) : M Json :=
  let* response := fetch (retryRequest url options) in
  if negb (ok response) then
    let* errorText := liftResult (text response) in
    throw (JsError ("HTTP error! status: " ++ pretty (status response)
                      ++ ", message: " ++ errorText))
  else liftResult (json response).

(** The [for] loop from iteration [i], with [remaining = MAX_RETRIES - i]
    iterations to go; after the loop, [throw lastError]. *)
Fixpoint retryFrom (remaining : nat) (i : Z) (lastError : Thrown)
    (url : string) (options : RequestInit) : M Json :=
  match remaining with
  | O => throw lastError
  | S remaining' =>
      tryCatch (attempt url options)
        (fun error =>
           if i <? PROVIDER_CONFIG.MAX_RETRIES - 1 then
             let delay := PROVIDER_CONFIG.RETRY_DELAY * 2 ^ i in
             let* _ := sleep delay in
             retryFrom remaining' (i + 1) error url options
           else retryFrom remaining' (i + 1) error url options)
  end.

Definition fetchWithRetry (url : string) (options : RequestInit) : M Json :=
  retryFrom (Z.to_nat PROVIDER_CONFIG.MAX_RETRIES) 0 JsUndefined url options.

(** [fetch(...).then((res) => res.json()).catch((err) => console.error(err))]:
    [undefined] when the request or the parse fails. *)
Definition fetchJsonOrUndefined (r : Request) : M (option Json) :=
  tryCatch
    (let* res := fetch r in
     let* data := liftResult (json res) in
     ret (Some data))
    (fun _ => ret None).

Definition securityUrl : string :=
  PROVIDER_CONFIG.BIRDEYE_API
    ++ PROVIDER_CONFIG.TOKEN_SECURITY_ENDPOINT ++ tokenAddress.

Definition fetchTokenSecurity : M TokenSecurityData :=
  let cacheKey := "tokenSecurity_" ++ tokenAddress in
  let* cachedData := getCachedData securityLens cacheKey in
  match cachedData with
  | Some cached => ret cached
  | None =>
      let* data := fetchWithRetry securityUrl noOptions in
      match data with
      | JsonSecurity {| success := true; payload := Some d |} =>
          let security :=
            {| ownerBalance := ownerBalance d;
               creatorBalance := creatorBalance d;
               ownerPercentage := ownerPercentage d;
               creatorPercentage := creatorPercentage d;
               top10HolderBalance := top10HolderBalance d;
               top10HolderPercent := top10HolderPercent d |} in
          let* _ := setCachedData securityLens cacheKey security in
          ret security
      | _ => throw (JsError "No token security data available")
      end
  end.

(** [fetch(url, options)] of [fetchTokenTradeData]. *)
Definition tradeRequest : Request :=
  let url := PROVIDER_CONFIG.BIRDEYE_API
               ++ PROVIDER_CONFIG.TOKEN_TRADE_DATA_ENDPOINT ++ tokenAddress in
  let options :=
    {| init_method := Some "GET";
       init_headers := {[ "accept" := "application/json";
                          "X-API-KEY" := orEmpty (BIRDEYE_API_KEY settings) ]};
       init_body := NoBody |} in
  {| req_url := url; req_init := options |}.

Definition fetchTokenTradeData : M TokenTradeData :=
  let cacheKey := "tokenTradeData_" ++ tokenAddress in
  let* cachedData := getCachedData tradeLens cacheKey in
  match cachedData with
  | Some cached => ret cached
  | None =>
      let* data := fetchJsonOrUndefined tradeRequest in
      match data with
      | Some (JsonTrade {| success := true; payload := Some d |}) =>
          let tradeData :=
            {| holder := holder d;
               price := price d;
               price_change_12h_percent := price_change_12h_percent d;
               price_change_24h_percent := price_change_24h_percent d;
               unique_wallet_24h := unique_wallet_24h d;
               volume_24h_usd := volume_24h_usd d;
               unique_wallet_30m_change_percent := unique_wallet_30m_change_percent d;
               unique_wallet_1h_change_percent := unique_wallet_1h_change_percent d;
               unique_wallet_2h_change_percent := unique_wallet_2h_change_percent d;
               unique_wallet_4h_change_percent := unique_wallet_4h_change_percent d;
               unique_wallet_8h_change_percent := unique_wallet_8h_change_percent d;
               unique_wallet_24h_change_percent := unique_wallet_24h_change_percent d |} in
          let* _ := setCachedData tradeLens cacheKey tradeData in
          ret tradeData
      | _ => throw (JsError "No token trade data available")
      end
  end.

(** [fetch(url)] of [fetchDexScreenerData]. *)
Definition dexRequest : Request :=
  let url := "https://api.dexscreener.com/latest/dex/search?q=" ++ tokenAddress in
  {| req_url := url; req_init := noOptions |}.

Definition fetchDexScreenerData : M DexScreenerData :=
  let cacheKey := "dexScreenerData_" ++ tokenAddress in
  let* cachedData := getCachedData dexLens cacheKey in
  match cachedData with
  | Some cached => ret cached
  | None =>
      tryCatch
        (let* data := fetchJsonOrUndefined dexRequest in
         match data with
         | Some (JsonDex {| body_schemaVersion := v; body_pairs := Some ps |}) =>
             let dexData := {| schemaVersion := v; pairs := ps |} in
             let* _ := setCachedData dexLens cacheKey dexData in
             ret dexData
         | _ => throw (JsError "No DexScreener data available")
         end)
        (fun _ => ret {| schemaVersion := JsStr "1.0.0"; pairs := [] |})
  end.

(** [.filter((change) => change !== null && change !== undefined)] *)
Definition validChangesOf (changes : list (Nullable float)) : list float :=
  omap (fun change => match change with Present x => Some x | _ => None end) changes.

Definition lengthAsNumber {A} (l : list A) : float :=
  PrimFloat.of_uint63 (Uint63.of_Z (Z.of_nat (length l))).

Definition analyzeHolderDistribution (tradeData : TokenTradeData) : string :=
  let intervals :=
    [ ("30m", unique_wallet_30m_change_percent tradeData);
      ("1h", unique_wallet_1h_change_percent tradeData);
      ("2h", unique_wallet_2h_change_percent tradeData);
      ("4h", unique_wallet_4h_change_percent tradeData);
      ("8h", unique_wallet_8h_change_percent tradeData);
      ("24h", unique_wallet_24h_change_percent tradeData) ] in
  let validChanges := validChangesOf (map snd intervals) in
  if Nat.eqb (length validChanges) 0 then "stable"
  else
    let averageChange :=
      (fold_left (fun acc curr => acc + curr) validChanges 0
         / lengthAsNumber validChanges)%float in
    let increaseThreshold := 10%float in
    let decreaseThreshold := (-10)%float in
    if (increaseThreshold <? averageChange)%float then "increasing"
    else if (averageChange <? decreaseThreshold)%float then "decreasing"
    else "stable".

Definition heliusUrl : string :=
  "https://mainnet.helius-rpc.com/?api-key=" ++ orEmpty (HELIOUS_API_KEY settings).

Definition heliusRequest (cursor : option string) : Request :=
  {| req_url := heliusUrl;
     req_init :=
       {| init_method := Some "POST";
          init_headers := {[ "Content-Type" := "application/json" ]};
          init_body := GetTokenAccounts 1000 tokenAddress cursor |} |}.

(** The page of a response, unless the loop's exit test
    ([!data || !data.result || !data.result.token_accounts || length === 0])
    holds; with it, the cursor of the response. *)
Definition pageOf (data : Json) : option (list TokenAccount * option string) :=
  match data with
  | JsonHelius {| result := Some {| token_accounts := Some (a :: accounts); cursor := c |} |} =>
      Some (a :: accounts, c)
  | _ => None
  end.

(** The [while (true)] loop of [fetchHolderList], from its state at the top
    of an iteration. *)
Equations? holderLoop (page : Z) (cursor : option string)
    (allHoldersMap : list (string * float)) : M (list (string * float))
    by wf (Z.to_nat (3 - page)) lt :=
  holderLoop page cursor allHoldersMap with decide (page > 2) := {
    | left _ => ret allHoldersMap
    | right _ =>
        let* response := fetch (heliusRequest cursor) in
        let* data := liftResult (json response) in
        match pageOf data with
        | None => ret allHoldersMap
        | Some (accounts, next) =>
            holderLoop (page + 1) next (processAccounts accounts allHoldersMap)
        end }.
Proof. lia. Qed.

Definition fetchHolderList : M (list HolderData) :=
  let cacheKey := "holderList_" ++ tokenAddress in
  let* cachedData := getCachedData holderLens cacheKey in
  match cachedData with
  | Some cached => ret cached
  | None =>
      tryCatch
        (let* allHoldersMap := holderLoop 1 None [] in
         let holders := materialize allHoldersMap in
         let* _ := setCachedData holderLens cacheKey holders in
         ret holders)
        (fun _ => throw (JsError "Failed to fetch holder list from Helius."))
  end.

Definition usdValue (tokenPriceUsd : BigNumber.t) (holder : HolderData) : BigNumber.t :=
  BigNumber.multipliedBy (BigNumber.ofString (balance holder)) tokenPriceUsd.

Definition filterHighValueHolders (tradeData : TokenTradeData)
    : M (list HighValueHolder) :=
  let* holdersData := fetchHolderList in
  let tokenPriceUsd := BigNumber.make (price tradeData) in
  let highValueHolders :=
    map (fun holder =>
           {| holderAddress := address holder;
              balanceUsd :=
                BigNumber.toFixed 2
                  (BigNumber.multipliedBy (BigNumber.ofString (balance holder))
                     tokenPriceUsd) |})
        (List.filter
           (fun holder =>
              let balanceUsd :=
                BigNumber.multipliedBy (BigNumber.ofString (balance holder))
                  tokenPriceUsd in
              BigNumber.isGreaterThan balanceUsd (BigNumber.ofNumber 5))
           holdersData) in
  ret highValueHolders.

Definition checkRecentTrades (tradeData : TokenTradeData) : bool :=
  BigNumber.isGreaterThan (BigNumber.make (volume_24h_usd tradeData))
    (BigNumber.ofNumber 0).

Definition countHighSupplyHolders (securityData : TokenSecurityData) : M nat :=
  tryCatch
    (let ownerBalance := BigNumber.make (ownerBalance securityData) in
     let totalSupply :=
       BigNumber.plus ownerBalance (BigNumber.make (creatorBalance securityData)) in
     let* highSupplyHolders := fetchHolderList in
     let highSupplyHoldersCount :=
       length
         (List.filter
            (fun holder =>
               let balance := BigNumber.ofString (balance holder) in
               BigNumber.isGreaterThan (BigNumber.dividedBy balance totalSupply)
                 (BigNumber.ofNumber 0.02))
            highSupplyHolders) in
     ret highSupplyHoldersCount)
    (fun _ => ret 0%nat).

(** [pair.boosts && pair.boosts.active > 0], as the truth value [some]
    tests. *)
Definition boosted (pair : DexScreenerPair) : bool :=
  match boosts pair with
  | Present b =>
      match active b with
      | Present x => (0 <? x)%float
      | _ => false
      end
  | _ => false
  end.

Definition getProcessedTokenData : M ProcessedTokenData :=
  tryCatch
    (let* security := fetchTokenSecurity in
     let* tradeData := fetchTokenTradeData in
     let* dexData := fetchDexScreenerData in
     let holderDistributionTrend := analyzeHolderDistribution tradeData in
     let* highValueHolders := filterHighValueHolders tradeData in
     let recentTrades := checkRecentTrades tradeData in
     let* highSupplyHoldersCount := countHighSupplyHolders security in
     let isDexScreenerListed := negb (Nat.eqb (length (pairs dexData)) 0) in
     let isDexScreenerPaid := existsb boosted (pairs dexData) in
     let processedData :=
       {| security := security;
          tradeData := tradeData;
          holderDistributionTrend := holderDistributionTrend;
          highValueHolders := highValueHolders;
          recentTrades := recentTrades;
          highSupplyHoldersCount := highSupplyHoldersCount;
          dexScreenerData := dexData;
          isDexScreenerListed := isDexScreenerListed;
          isDexScreenerPaid := isDexScreenerPaid |} in
     ret processedData)
    (fun error => throw error).

Definition newline : string := String (ascii_of_nat 10) "".

Definition yesNo (b : bool) : string := if b then "Yes" else "No".

(** [`${pair.boosts && pair.boosts.active}`] *)
Definition boostsActiveText (pair : DexScreenerPair) : string :=
  match boosts pair with
  | Undefined => "undefined"
  | Null => "null"
  | Present b =>
      match active b with
      | Undefined => "undefined"
      | Null => "null"
      | Present x => JsNumber.toString x
      end
  end.

(** One round of the [forEach] over the pairs; reading [h24] of a [volume]
    or [usd] of a [liquidity] that is missing or [null] throws a
    [TypeError]. *)
Definition formatPair (index : nat) (pair : DexScreenerPair) : Result string :=
  match volume pair with
  | Undefined => Throw (JsError "Cannot read properties of undefined (reading 'h24')")
  | Null => Throw (JsError "Cannot read properties of null (reading 'h24')")
  | Present vol =>
      match liquidity pair with
      | Undefined =>
          Throw (JsError "Cannot read properties of undefined (reading 'usd')")
      | Null => Throw (JsError "Cannot read properties of null (reading 'usd')")
      | Present liq =>
          Ok (newline ++ "**Pair " ++ pretty (index + 1)%nat ++ ":**" ++ newline
              ++ "- DEX: " ++ interpolate (dexId pair) ++ newline
              ++ "- URL: " ++ interpolate (url pair) ++ newline
              ++ "- Price USD: $"
              ++ BigNumber.toFixed 6 (BigNumber.make (priceUsd pair)) ++ newline
              ++ "- Volume (24h USD): $"
              ++ BigNumber.toFixed 2 (BigNumber.make (h24 vol)) ++ newline
              ++ "- Boosts Active: " ++ boostsActiveText pair ++ newline
              ++ "- Liquidity USD: $"
              ++ BigNumber.toFixed 2 (BigNumber.make (usd liq)) ++ newline)
      end
  end.

Fixpoint formatPairs (index : nat) (ps : list DexScreenerPair) (output : string)
    : Result string :=
  match ps with
  | [] => Ok output
  | p :: rest =>
      match formatPair index p with
      | Ok piece => formatPairs (S index) rest (output ++ piece)
      | Throw e => Throw e
      end
  end.

Definition formatTokenData (data : ProcessedTokenData) : Result string :=
  let output := "**Token Security and Trade Report**" ++ newline in
  let output := output ++ "Token Address: " ++ tokenAddress ++ newline ++ newline in
  (* Security Data *)
  let output := output ++ "**Ownership Distribution:**" ++ newline in
  let output := output ++ "- Owner Balance: "
                  ++ interpolate (ownerBalance (security data)) ++ newline in
  let output := output ++ "- Creator Balance: "
                  ++ interpolate (creatorBalance (security data)) ++ newline in
  let output := output ++ "- Owner Percentage: "
                  ++ interpolate (ownerPercentage (security data)) ++ "%" ++ newline in
  let output := output ++ "- Creator Percentage: "
                  ++ interpolate (creatorPercentage (security data)) ++ "%" ++ newline in
  let output := output ++ "- Top 10 Holders Balance: "
                  ++ interpolate (top10HolderBalance (security data)) ++ newline in
  let output := output ++ "- Top 10 Holders Percentage: "
                  ++ interpolate (top10HolderPercent (security data)) ++ "%"
                  ++ newline ++ newline in
  (* Trade Data *)
  let output := output ++ "**Trade Data:**" ++ newline in
  let output := output ++ "- Holders: "
                  ++ interpolate (holder (tradeData data)) ++ newline in
  let output := output ++ "- Unique Wallets (24h): "
                  ++ interpolate (unique_wallet_24h (tradeData data)) ++ newline in
  let output := output ++ "- Price Change (24h): "
                  ++ interpolate (price_change_24h_percent (tradeData data))
                  ++ "%" ++ newline in
  let output := output ++ "- Price Change (12h): "
                  ++ interpolate (price_change_12h_percent (tradeData data))
                  ++ "%" ++ newline in
  let output := output ++ "- Volume (24h USD): $"
                  ++ BigNumber.toFixed 2 (BigNumber.make (volume_24h_usd (tradeData data)))
                  ++ newline in
  let output := output ++ "- Current Price: $"
                  ++ BigNumber.toFixed 2 (BigNumber.make (price (tradeData data)))
                  ++ newline ++ newline in
  (* Holder Distribution Trend *)
  let output := output ++ "**Holder Distribution Trend:** "
                  ++ holderDistributionTrend data ++ newline ++ newline in
  (* High-Value Holders *)
  let output := output ++ "**High-Value Holders (>$5 USD):**" ++ newline in
  let output :=
    if Nat.eqb (length (highValueHolders data)) 0
    then output ++ "- No high-value holders found or data not available." ++ newline
    else fold_left
           (fun output holder =>
              output ++ "- " ++ holderAddress holder ++ ": $" ++ balanceUsd holder
                ++ newline)
           (highValueHolders data) output in
  let output := output ++ newline in
  (* Recent Trades *)
  let output := output ++ "**Recent Trades (Last 24h):** "
                  ++ yesNo (recentTrades data) ++ newline ++ newline in
  (* High-Supply Holders *)
  let output := output ++ "**Holders with >2% Supply:** "
                  ++ pretty (highSupplyHoldersCount data) ++ newline ++ newline in
  (* DexScreener Status *)
  let output := output ++ "**DexScreener Listing:** "
                  ++ yesNo (isDexScreenerListed data) ++ newline in
  let output :=
    if isDexScreenerListed data then
      let output := output ++ "- Listing Type: "
                      ++ (if isDexScreenerPaid data then "Paid" else "Free") ++ newline in
      let output := output ++ "- Number of DexPairs: "
                      ++ pretty (length (pairs (dexScreenerData data)))
                      ++ newline ++ newline in
      let output := output ++ "**DexScreener Pairs:**" ++ newline in
      formatPairs 0 (pairs (dexScreenerData data)) output
    else Ok output in
  match output with
  | Ok output => Ok (output ++ newline)
  | Throw e => Throw e
  end.

Definition unableToFetch : string :=
  "Unable to fetch token information. Please try again later.".

Definition getFormattedTokenReport : M string :=
  tryCatch
    (let* processedData := getProcessedTokenData in
     liftResult (formatTokenData processedData))
    (fun _ => ret unableToFetch).

End TokenProvider.

(** ** Vocabulary of the properties *)

(** *** The world after a request *)

(** The world once request [r] has been sent and answered: what [fetch]
    leaves behind, whether the promise resolves or rejects. *)
Definition sent (r : Request) (w : World) : World :=
  setNowCallsTrace (now w + Z.of_N (latency (upstream w (calls w) r))) (S (calls w))
    (trace w ++ [EvFetch r]) w.

(** *** Failed requests *)

(** What an attempt of [fetchWithRetry] raises when its request meets [ex]: the
    transport error, the [HTTP error!] of a response that is not ok, or the
    error of reading the body; [None] when the attempt succeeds. *)
Definition attemptFailure (ex : Exchange) : option Thrown :=
  match outcome ex with
  | Rejected e => Some e
  | Resolved r =>
      if ok r then
        match json r with
        | Throw e => Some e
        | Ok _ => None
        end
      else
        match text r with
        | Throw e => Some e
        | Ok errorText =>
            Some (JsError ("HTTP error! status: " ++ pretty (status r)
                             ++ ", message: " ++ errorText))
        end
  end.

(** The JSON an attempt of [fetchWithRetry] returns when its request meets
    [ex]; [None] when the attempt fails. *)
Definition attemptSuccess (ex : Exchange) : option Json :=
  match outcome ex with
  | Rejected _ => None
  | Resolved r =>
      if ok r then
        match json r with
        | Ok data => Some data
        | Throw _ => None
        end
      else None
  end.

(** The events of [n] failed attempts at [r] from iteration [i] on, each
    followed by its backoff. *)
Fixpoint failedAttempts (r : Request) (i : Z) (n : nat) : list Event :=
  match n with
  | O => []
  | S n' => EvFetch r :: EvTimeout (2000 * 2 ^ i) :: failedAttempts r (i + 1) n'
  end.

(** The world in which the next attempt starts after a failed attempt at
    [r] in iteration [i]: after the backoff, unless it was the last
    iteration. *)
Definition afterFailure (r : Request) (i : Z) (w : World) : World :=
  if i <? PROVIDER_CONFIG.MAX_RETRIES - 1
  then snd (sleep (PROVIDER_CONFIG.RETRY_DELAY * 2 ^ i) (sent r w))
  else sent r w.

(** The JSON body of an exchange, whatever the status of the response;
    [None] when the request is rejected or the body does not parse. *)
Definition bodyOf (ex : Exchange) : option Json :=
  match outcome ex with
  | Rejected _ => None
  | Resolved r =>
      match json r with
      | Ok data => Some data
      | Throw _ => None
      end
  end.

(** What the two tiers answer for [cacheKey] in world [w], and the world
    once they have been asked. *)
Definition cached {V} (L : StoreLens V) (cacheKey : string) (w : World) : option V :=
  fst (Cache.getCachedData objectTruthy (now w) cacheKey (getStore L w)).

Definition asked {V} (L : StoreLens V) (cacheKey : string) (w : World) : World :=
  putStore L (snd (Cache.getCachedData objectTruthy (now w) cacheKey (getStore L w))) w.

(** What [fetchDexScreenerData] answers when it could not get the pairs. *)
Definition noDexData : DexScreenerData :=
  {| schemaVersion := JsStr "1.0.0"; pairs := [] |}.

(** The DexScreener data in a body, when the body has [pairs]. *)
Definition dexDataOf (body : option Json) : option DexScreenerData :=
  match body with
  | Some (JsonDex {| body_schemaVersion := v; body_pairs := Some ps |}) =>
      Some {| schemaVersion := v; pairs := ps |}
  | _ => None
  end.



(** Whether [filterHighValueHolders] keeps a holder. *)
Definition isHighValue (tokenPriceUsd : BigNumber.t) (holder : HolderData) : bool :=
  BigNumber.isGreaterThan (usdValue tokenPriceUsd holder) (BigNumber.ofNumber 5).

(** The composite [getProcessedTokenData] builds from what it fetched. *)
Definition compose (security : TokenSecurityData) (tradeData : TokenTradeData)
    (dexData : DexScreenerData) (holdersData : list HolderData) (count : nat)
    : ProcessedTokenData :=
  {| security := security;
     tradeData := tradeData;
     holderDistributionTrend := analyzeHolderDistribution tradeData;
     highValueHolders :=
       map (fun holder =>
              {| holderAddress := address holder;
                 balanceUsd :=
                   BigNumber.toFixed 2
                     (usdValue (BigNumber.make (price tradeData)) holder) |})
           (List.filter (isHighValue (BigNumber.make (price tradeData))) holdersData);
     recentTrades := checkRecentTrades tradeData;
     highSupplyHoldersCount := count;
     dexScreenerData := dexData;
     isDexScreenerListed := negb (Nat.eqb (length (pairs dexData)) 0);
     isDexScreenerPaid := existsb boosted (pairs dexData) |}.

(** *** Reports *)

(** The first two lines of every report and the blank line after them. *)
Definition reportHeader (tokenAddress : string) : string :=
  ("**Token Security and Trade Report**" ++ newline)
    ++ "Token Address: " ++ tokenAddress ++ newline ++ newline.

(** Text [s] begins with text [p]. *)
Definition extends (p s : string) : Prop := ∃ rest : string, s = p ++ rest.

(** The [TypeError] of reading the property [field] of [what], which is
    [undefined] or [null]. *)
Definition cannotRead (what field : string) : Thrown :=
  JsError ("Cannot read properties of " ++ what ++ " (reading '" ++ field ++ "')").

(** A pair whose [volume] and [liquidity] objects are both there. *)
Definition complete (pair : DexScreenerPair) : bool :=
  match volume pair, liquidity pair with
  | Present _, Present _ => true
  | _, _ => false
  end.

(** *** The provider object *)








(** The file of [cacheKey] is there and has not expired at [T]. *)
Definition fileLive {V} (L : StoreLens V) (cacheKey : string) (T : Z) (w : World)
    : Prop :=
  ∃ f, Cache.files (getStore L w) !! cacheKey = Some f ∧ T < Cache.expiry f.

(** *** Writes of cache files *)

(** What the next [writeFileSync] throws in world [w] when it writes the
    file of [cacheKey]; [None] when it writes the file. *)
Definition writeFault (cacheKey : string) (w : World) : option Thrown :=
  diskFault w (writes w) cacheKey.

(** The world once [setCachedData] has run: the value is in the memory
    tier, and in its file unless the write failed. *)
Definition afterSet {V} `{Jsonable V} (L : StoreLens V) (cacheKey : string) (d : V)
    (w : World) : World :=
  snd (setCachedData L cacheKey d w).

(** A cache key without a path separator: [path.join] leaves it as it is,
    so that two such keys name the same file only when they are equal. *)
Definition plainKey (cacheKey : string) : bool :=
  forallb (fun c => negb (Ascii.eqb c "/" || Ascii.eqb c "\")%char)
    (String.list_ascii_of_string cacheKey).


(** *** Numbers in plain notation *)









(** Two worlds with the same caches. *)
Definition sameStores (w w' : World) : Prop :=
  securityStore w' = securityStore w ∧ tradeStore w' = tradeStore w
  ∧ dexStore w' = dexStore w ∧ holderStore w' = holderStore w.

(** *** The trend of the unique wallets *)

(** The six windows: 30m, 1h, 2h, 4h, 8h, 24h. *)
Definition uniqueWalletChanges (tradeData : TokenTradeData) : list (Nullable float) :=
  [ unique_wallet_30m_change_percent tradeData;
    unique_wallet_1h_change_percent tradeData;
    unique_wallet_2h_change_percent tradeData;
    unique_wallet_4h_change_percent tradeData;
    unique_wallet_8h_change_percent tradeData;
    unique_wallet_24h_change_percent tradeData ].

(** The arithmetic mean of a list of doubles, in double arithmetic: the sum
    from the left, starting at 0, divided by the number of values. *)
Definition arithmeticMean (values : list float) : float :=
  (fold_left PrimFloat.add values 0 / lengthAsNumber values)%float.

(** *** Pages of holder accounts *)

(** The owner and the parsed amount of each account of a page. *)
Definition parsedAccounts (accounts : list TokenAccount) : list (string * float) :=
  map (fun account => (owner account, parseFloat (amount account))) accounts.

(** The amounts that [page] lists for owner [k], in the order of the page. *)
Definition amountsOf {num} (k : string) (page : list (string * num)) : list num :=
  omap (fun '(owner, balance) => if decide (owner = k) then Some balance else None) page.

(** The sum of a list of amounts from the left, on top of what is held. *)
Definition sumOnto {num} (add : num → num → num) (held : option num)
    (amounts : list num) : option num :=
  fold_left
    (fun acc balance =>
       Some (match acc with Some held => add held balance | None => balance end))
    amounts held.

(** *** Histories of a cache key *)

(** What may happen to the two tiers between a write and a later read of
    the key: reads and writes by the running instance (a write whose file
    is written or not, as the disk decides), and a new instance taking over
    the cache directory. *)
Inductive CacheOp (V : Type) : Type :=
| OpGet (cacheKey : string) (time : Z)
| OpSet (cacheKey : string) (time : Z) (value : V) (fault : option Thrown)
| OpNewInstance.
Arguments OpGet {V} cacheKey time.
Arguments OpSet {V} cacheKey time value fault.
Arguments OpNewInstance {V}.

Definition runOp {V} `{Jsonable V} (truthy : V → bool) (op : CacheOp V)
    (st : Cache.TwoTier V) : Cache.TwoTier V :=
  match op with
  | OpGet cacheKey time => snd (Cache.getCachedData truthy time cacheKey st)
  | OpSet cacheKey time value fault =>
      snd (Cache.setCachedData fault time cacheKey value st)
  | OpNewInstance => Cache.newInstance st
  end.

Definition runOps {V} `{Jsonable V} (truthy : V → bool) (ops : list (CacheOp V))
    (st : Cache.TwoTier V) : Cache.TwoTier V :=
  fold_left (fun st op => runOp truthy op st) ops st.

(** An operation that happens while the entry written under [cacheKey] at
    [T] is younger than 300 s and that does not write it anew: a read of
    any key, a restart, or a write under another key, both keys naming
    files of their own. *)
Definition quiet {V} (cacheKey : string) (T : Z) (op : CacheOp V) : Prop :=
  match op with
  | OpGet _ time => T ≤ time < T + 300000
  | OpSet other time _ _ =>
      T ≤ time < T + 300000
      ∧ other ≠ cacheKey ∧ plainKey other = true ∧ plainKey cacheKey = true
  | OpNewInstance => True
  end.

(** An operation of the instance that is running. *)
Definition sameInstance {V} (op : CacheOp V) : Prop :=
  match op with
  | OpGet _ _ | OpSet _ _ _ _ => True
  | OpNewInstance => False
  end.

(** The cache right after [setCachedData] has stored [v] under [cacheKey]
    at [T]. *)
Definition stored {V} `{Jsonable V} (T : Z) (cacheKey : string) (v : V)
    (st : Cache.TwoTier V) : Cache.TwoTier V :=
  snd (Cache.setCachedData None T cacheKey v st).

(** The entry written at [T] is in place: on disk, as its JSON text reads
    back, with its expiry; and in memory, if at all, as it was written or as
    the file gave it back, with a lifetime that ends no earlier. *)
Definition Fresh {V} `{Jsonable V} (cacheKey : string) (v : V) (T : Z)
    (st : Cache.TwoTier V) : Prop :=
  Cache.files st !! cacheKey
    = Some {| Cache.data := viaJson v; Cache.expiry := T + 300000 |}
  ∧ match Cache.memory st !! cacheKey with
    | None => True
    | Some e => (Cache.m_value e = v ∨ Cache.m_value e = viaJson v)
                ∧ T + 300000 ≤ Cache.m_t e
    end.

(** The entry written at [T] is in the memory of the instance that wrote
    it, untouched, and on disk. *)
Definition Held {V} `{Jsonable V} (cacheKey : string) (v : V) (T : Z)
    (st : Cache.TwoTier V) : Prop :=
  Cache.files st !! cacheKey
    = Some {| Cache.data := viaJson v; Cache.expiry := T + 300000 |}
  ∧ Cache.memory st !! cacheKey
    = Some {| Cache.m_value := v; Cache.m_t := T + 300000 |}.

(** Truthiness of a string: the empty string is falsy. *)
Definition nonEmpty (s : string) : bool := negb (String.eqb s "").

Definition emptyStore {V} : Cache.TwoTier V :=
  {| Cache.memory := ∅; Cache.files := ∅ |}.

(** *** Fixtures *)

Definition exampleToken : string := "2weMjPLLybRMMva1fM3U31goWWrCpF59CHWNhnCJ9Vyh".

Definition exampleSettings : Settings :=
  {| BIRDEYE_API_KEY := Some "birdeye-key"; HELIOUS_API_KEY := None |}.

(** A new instance over an empty cache directory, facing [net]. *)
Definition freshWorld (net : nat → Request → Exchange) : World :=
  {| now := 1700000000000;
     securityStore := emptyStore; tradeStore := emptyStore;
     dexStore := emptyStore; holderStore := emptyStore;
     upstream := net; calls := 0; trace := [];
     diskFault := fun _ _ => None; writes := 0 |}.

Definition respond (ms : N) (j : Json) : Exchange :=
  {| latency := ms;
     outcome := Resolved {| ok := true; status := 200; text := Ok ""; json := Ok j |} |}.


Definition reject (ms : N) (message : string) : Exchange :=
  {| latency := ms; outcome := Rejected (JsError message) |}.


Definition exampleSecurity : TokenSecurityData :=
  {| ownerBalance := JsStr "100"; creatorBalance := JsStr "50";
     ownerPercentage := JsNum 0.5; creatorPercentage := JsNull;
     top10HolderBalance := JsStr "1000"; top10HolderPercent := JsNum 0.25 |}.

(** Security data with a percentage beyond every double: the JSON number
    [1e999] parses to [Infinity]. *)
Definition overflowSecurity : TokenSecurityData :=
  {| ownerBalance := JsStr "100"; creatorBalance := JsStr "50";
     ownerPercentage := JsNum infinity; creatorPercentage := JsNull;
     top10HolderBalance := JsStr "1000"; top10HolderPercent := JsNum 0.25 |}.

(** An upstream that drops the first request and answers every later one
    with a security payload. *)
Definition failsOnce (n : nat) (_ : Request) : Exchange :=
  match n with
  | O => reject 30 "connect ECONNRESET"
  | S _ => respond 40 (JsonSecurity {| success := true; payload := Some exampleSecurity |})
  end.



(** An upstream that answers every request with [{success: false}]. *)
Definition unsuccessful (_ : nat) (_ : Request) : Exchange :=
  respond 35 (JsonSecurity {| success := false; payload := None |}).







(** * Properties *)

(** ** The two-tier cache *)

Section CacheFacts.
Context {V : Type} `{Jsonable V}.
Variable truthy : V → bool.

Lemma Fresh_stored cacheKey (v : V) T st :
  Fresh cacheKey v T (stored T cacheKey v st).
Proof.
  split; simpl.
  - by rewrite lookup_insert_eq.
  - unfold Cache.NodeCache_set. rewrite lookup_insert_eq. simpl.
    unfold Cache.stdTTL. split; [by left | lia].
Qed.

Lemma Held_stored cacheKey (v : V) T st :
  Held cacheKey v T (stored T cacheKey v st).
Proof.
  split; simpl.
  - by rewrite lookup_insert_eq.
  - unfold Cache.NodeCache_set. by rewrite lookup_insert_eq.
Qed.

(** A read while the entry is fresh is served, by the memory tier or, with
    promotion, by the file tier. *)
Lemma Fresh_read cacheKey (v : V) T st time :
  truthy v = true → truthy (viaJson v) = true →
  Fresh cacheKey v T st → T ≤ time < T + 300000 →
  (fst (Cache.getCachedData truthy time cacheKey st) = Some v
   ∨ fst (Cache.getCachedData truthy time cacheKey st) = Some (viaJson v))
  ∧ Fresh cacheKey v T (snd (Cache.getCachedData truthy time cacheKey st)).
Proof.
  intros Hv Hj [Hf Hm] Ht. unfold Cache.getCachedData, Cache.NodeCache_get.
  destruct (Cache.memory st !! cacheKey) as [e|] eqn:E.
  - destruct Hm as [Hval Hle].
    destruct (Z.ltb_spec (Cache.m_t e) time); [lia|]. simpl.
    assert (He : truthy (Cache.m_value e) = true) by (destruct Hval as [-> | ->]; done).
    rewrite He. simpl. split; [destruct Hval as [-> | ->]; [by left | by right]|].
    split; simpl; [done|]. by rewrite E.
  - simpl. unfold Cache.readCacheFromFile. rewrite Hf. simpl.
    destruct (Z.ltb_spec time (T + 300000)); [|lia]. simpl. rewrite Hj. simpl.
    split; [by right|]. split; simpl; [done|].
    unfold Cache.NodeCache_set. rewrite lookup_insert_eq. simpl.
    unfold Cache.stdTTL. split; [by right | lia].
Qed.

Lemma getCachedData_other cacheKey (st : Cache.TwoTier V) k time :
  k ≠ cacheKey →
  Cache.files (snd (Cache.getCachedData truthy time k st)) !! cacheKey
    = Cache.files st !! cacheKey
  ∧ Cache.memory (snd (Cache.getCachedData truthy time k st)) !! cacheKey
    = Cache.memory st !! cacheKey.
Proof.
  intros Hk.
  unfold Cache.getCachedData, Cache.NodeCache_get, Cache.readCacheFromFile,
    Cache.NodeCache_set.
  destruct (Cache.memory st !! k) as [e|]; [destruct (Cache.m_t e <? time)|]; simpl;
    try destruct (truthy (Cache.m_value e)); simpl;
    try (destruct (Cache.files st !! k) as [f|];
         [destruct (time <? Cache.expiry f)|]; simpl;
         try destruct (truthy (Cache.data f)); simpl);
    rewrite ?lookup_insert_ne, ?lookup_delete_ne by done; done.
Qed.

(** A write under another key leaves the entry where it is. *)
Lemma setCachedData_other cacheKey (v : V) T (st : Cache.TwoTier V) k time v' fault :
  k ≠ cacheKey →
  (Fresh cacheKey v T st →
   Fresh cacheKey v T (snd (Cache.setCachedData fault time k v' st)))
  ∧ (Held cacheKey v T st →
     Held cacheKey v T (snd (Cache.setCachedData fault time k v' st))).
Proof.
  intros Hk. unfold Fresh, Held, Cache.setCachedData, Cache.writeCacheToFile,
    Cache.NodeCache_set.
  destruct fault; simpl; rewrite ?lookup_insert_ne by done; done.
Qed.

Lemma Fresh_op cacheKey (v : V) T st op :
  truthy v = true → truthy (viaJson v) = true →
  quiet cacheKey T op → Fresh cacheKey v T st →
  Fresh cacheKey v T (runOp truthy op st).
Proof.
  intros Hv Hj Hq HF. destruct op as [k time | k time v' fault |]; simpl in *.
  - destruct (decide (k = cacheKey)) as [->|Hk].
    + by apply Fresh_read.
    + destruct HF as [Hf Hm].
      destruct (getCachedData_other cacheKey st k time Hk) as [Ef Em].
      split; [by rewrite Ef | by rewrite Em].
  - destruct Hq as (_ & Hk & _).
    by apply (proj1 (setCachedData_other cacheKey v T st k time v' fault Hk)).
  - destruct HF as [Hf _]. split; simpl; [done|]. by rewrite lookup_empty.
Qed.

Lemma Fresh_ops cacheKey (v : V) T ops : ∀ st,
  truthy v = true → truthy (viaJson v) = true →
  Forall (quiet cacheKey T) ops → Fresh cacheKey v T st →
  Fresh cacheKey v T (runOps truthy ops st).
Proof.
  induction ops as [|op ops IH]; intros st Hv Hj Hq HF; [done|].
  inversion Hq; subst. simpl. apply IH; [done..|]. by apply Fresh_op.
Qed.

(** The instance that wrote the entry answers from its memory up to and
    including the last millisecond, and its reads leave the entry alone. *)
Lemma Held_read cacheKey (v : V) T st time :
  truthy v = true → Held cacheKey v T st → time ≤ T + 300000 →
  Cache.getCachedData truthy time cacheKey st = (Some v, st).
Proof.
  intros Hv [Hf Hm] Ht. unfold Cache.getCachedData, Cache.NodeCache_get.
  rewrite Hm. simpl. destruct (Z.ltb_spec (T + 300000) time); [lia|]. simpl.
  rewrite Hv. by destruct st.
Qed.

Lemma Held_op cacheKey (v : V) T st op :
  truthy v = true → quiet cacheKey T op → sameInstance op → Held cacheKey v T st →
  Held cacheKey v T (runOp truthy op st).
Proof.
  intros Hv Hq Hs HH. destruct op as [k time | k time v' fault |]; simpl in *; [| |done].
  - destruct (decide (k = cacheKey)) as [->|Hk].
    + rewrite (Held_read cacheKey v T st time) by (done || lia). done.
    + destruct HH as [Hf Hm].
      destruct (getCachedData_other cacheKey st k time Hk) as [Ef Em].
      split; [by rewrite Ef | by rewrite Em].
  - destruct Hq as (_ & Hk & _).
    by apply (proj2 (setCachedData_other cacheKey v T st k time v' fault Hk)).
Qed.

Lemma Held_ops cacheKey (v : V) T ops : ∀ st,
  truthy v = true → Forall (quiet cacheKey T) ops → Forall sameInstance ops →
  Held cacheKey v T st → Held cacheKey v T (runOps truthy ops st).
Proof.
  induction ops as [|op ops IH]; intros st Hv Hq Hs HH; [done|].
  inversion Hq; inversion Hs; subst. simpl. apply IH; [done..|]. by apply Held_op.
Qed.

(** The file tier never serves an entry at or after its expiry: it deletes
    the file. *)
Lemma file_expired time cacheKey (fs : gmap string (Cache.FileEntry V)) e :
  fs !! cacheKey = Some e → Cache.expiry e ≤ time →
  Cache.readCacheFromFile time cacheKey fs = (None, delete cacheKey fs).
Proof.
  intros E Hle. unfold Cache.readCacheFromFile. rewrite E.
  destruct (Z.ltb_spec time (Cache.expiry e)); [lia | done].
Qed.

Lemma expired_new_instance cacheKey (v : V) T st T' :
  Fresh cacheKey v T st → T + 300000 ≤ T' →
  fst (Cache.getCachedData truthy T' cacheKey (Cache.newInstance st)) = None.
Proof.
  intros [Hf _] Hle. unfold Cache.getCachedData, Cache.NodeCache_get. simpl.
  rewrite lookup_empty. simpl.
  by rewrite (file_expired _ _ _ _ Hf) by (simpl; lia).
Qed.

Lemma Held_expired cacheKey (v : V) T st T' :
  Held cacheKey v T st → T + 300000 < T' →
  fst (Cache.getCachedData truthy T' cacheKey st) = None.
Proof.
  intros [Hf Hm] Hlt. unfold Cache.getCachedData, Cache.NodeCache_get.
  rewrite Hm. simpl. destruct (Z.ltb_spec (T + 300000) T'); [|lia]. simpl.
  by rewrite (file_expired _ _ _ _ Hf) by (simpl; lia).
Qed.

End CacheFacts.

(** C4 (as amended). After [setCachedData] has stored a truthy value under a
    key at time [T], and whatever reads, writes under other keys and
    restarts of the provider happen while the entry is younger than 300 s
    (a key without a path separator counting as another key when it is a
    different one):
    - every read at [T' < T + 300 s] returns the value, as it was written or
      as its JSON text reads back from the file;
    - an instance created after the write that reads the key for the first
      time at [T' >= T + 300 s] reports it absent: the file tier never
      serves an entry whose persisted expiry has passed;
    - the instance that wrote the value returns it unchanged up to and
      including [T' = T + 300 s], and reports it absent at every
      [T' > T + 300 s]. *)
Theorem cache_ttl {V} `{Jsonable V} (truthy : V → bool) cacheKey (v : V) (T : Z)
    st ops :
  truthy v = true → truthy (viaJson v) = true →
  Forall (quiet cacheKey T) ops →
  let st' := runOps truthy ops (stored T cacheKey v st) in
  (∀ T', T ≤ T' < T + 300000 →
     fst (Cache.getCachedData truthy T' cacheKey st') = Some v
     ∨ fst (Cache.getCachedData truthy T' cacheKey st') = Some (viaJson v))
  ∧ (∀ T', T + 300000 ≤ T' →
       fst (Cache.getCachedData truthy T' cacheKey (Cache.newInstance st')) = None)
  ∧ (Forall sameInstance ops →
       (∀ T', T ≤ T' ≤ T + 300000 →
          fst (Cache.getCachedData truthy T' cacheKey st') = Some v)
       ∧ (∀ T', T + 300000 < T' →
            fst (Cache.getCachedData truthy T' cacheKey st') = None)).
Proof.
  intros Hv Hj Hq st'.
  pose proof (Fresh_ops truthy cacheKey v T ops _ Hv Hj Hq (Fresh_stored cacheKey v T st))
    as HF.
  split; [|split].
  - intros T' HT'. by apply (Fresh_read truthy cacheKey v T).
  - intros T' HT'. by apply (expired_new_instance truthy cacheKey v T).
  - intros Hs.
    pose proof (Held_ops truthy cacheKey v T ops _ Hv Hq Hs (Held_stored cacheKey v T st))
      as HH.
    split; intros T' HT'.
    + subst st'. rewrite (Held_read truthy cacheKey v T _ T') by (done || lia). done.
    + by apply (Held_expired truthy cacheKey v T).
Qed.

Lemma cache_ttl_witness :
  let cacheKey := "tokenSecurity_mint" in
  let st' :=
    runOps objectTruthy
      [OpGet cacheKey 2000; OpSet "tokenSecurity_other" 2500 exampleSecurity None;
       OpNewInstance; OpGet cacheKey 3000]
      (stored 1000 cacheKey overflowSecurity emptyStore) in
  (∀ T', 1000 ≤ T' < 1000 + 300000 →
     fst (Cache.getCachedData objectTruthy T' cacheKey st') = Some overflowSecurity
     ∨ fst (Cache.getCachedData objectTruthy T' cacheKey st')
       = Some (viaJson overflowSecurity))
  ∧ (∀ T', 1000 + 300000 ≤ T' →
       fst (Cache.getCachedData objectTruthy T' cacheKey (Cache.newInstance st'))
         = None).
Proof.
  destruct (cache_ttl objectTruthy "tokenSecurity_mint" overflowSecurity 1000 emptyStore
              [OpGet "tokenSecurity_mint" 2000;
               OpSet "tokenSecurity_other" 2500 exampleSecurity None;
               OpNewInstance; OpGet "tokenSecurity_mint" 3000])
    as (H1 & H2 & _).
  - reflexivity.
  - reflexivity.
  - constructor; [simpl; lia|].
    constructor; [simpl; split; [lia|]; split; [discriminate|]; split; reflexivity|].
    constructor; [exact I|]. constructor; [simpl; lia|]. constructor.
  - split; [exact H1 | exact H2].
Defined.

(** C4 as stated fails in four ways. The instance that wrote a value still
    serves it at the very instant 300 s. A value promoted from its file into
    the memory of a new instance at 299 s is still served at 400 s, after its
    persisted expiry of 300 s. A falsy value is never returned. A value with
    a number that is not finite comes back from the file changed. *)
Lemma cache_ttl_counterexample :
  let written := stored 0 "holderList_mint" "holders" emptyStore in
  let promoted :=
    snd (Cache.getCachedData nonEmpty 299000 "holderList_mint"
           (Cache.newInstance written)) in
  fst (Cache.getCachedData nonEmpty 300000 "holderList_mint" written) = Some "holders"
  ∧ Cache.expiry <$> Cache.files written !! "holderList_mint" = Some 300000
  ∧ fst (Cache.getCachedData nonEmpty 400000 "holderList_mint" promoted) = Some "holders"
  ∧ fst (Cache.getCachedData nonEmpty 1000 "holderList_mint"
           (stored 0 "holderList_mint" "" emptyStore)) = None
  ∧ fst (Cache.getCachedData objectTruthy 1000 "tokenSecurity_mint"
           (Cache.newInstance (stored 0 "tokenSecurity_mint" overflowSecurity emptyStore)))
    = Some (viaJson overflowSecurity)
  ∧ viaJson overflowSecurity ≠ overflowSecurity.
Proof. vm_compute. repeat split. discriminate. Qed.

(** Promotion gives a value a new lifetime in memory. When the memory tier
    has nothing under a key and the file of the key holds a truthy value
    that has not expired at [P], [getCachedData] at [P] returns that value,
    leaves the file as it is and puts the value into the memory tier, from
    where the same instance returns it at every instant up to and
    including [P + 300 s], whatever expiry the file carries. After that
    instant the memory tier has dropped it, and once the file has expired
    as well the key is absent. *)
Theorem getCachedData_promotes {V} (truthy : V → bool) cacheKey
    (f : Cache.FileEntry V) (P : Z) (st : Cache.TwoTier V) :
  Cache.memory st !! cacheKey = None →
  Cache.files st !! cacheKey = Some f →
  P < Cache.expiry f →
  truthy (Cache.data f) = true →
  let st1 := snd (Cache.getCachedData truthy P cacheKey st) in
  fst (Cache.getCachedData truthy P cacheKey st) = Some (Cache.data f)
  ∧ Cache.files st1 = Cache.files st
  ∧ (∀ T', T' ≤ P + 300000 →
       Cache.getCachedData truthy T' cacheKey st1 = (Some (Cache.data f), st1))
  ∧ (∀ T', P + 300000 < T' → Cache.expiry f ≤ T' →
       fst (Cache.getCachedData truthy T' cacheKey st1) = None).
Proof.
  intros Hm Hf Hlive Ht. unfold Cache.getCachedData at 1 2, Cache.NodeCache_get.
  rewrite Hm. simpl. unfold Cache.readCacheFromFile. rewrite Hf.
  destruct (Z.ltb_spec P (Cache.expiry f)); [|lia]. simpl. rewrite Ht. simpl.
  split; [done|]. split; [done|]. split; intros T' HT'.
  - unfold Cache.getCachedData, Cache.NodeCache_get, Cache.NodeCache_set. simpl.
    rewrite lookup_insert_eq. simpl. unfold Cache.stdTTL.
    destruct (Z.ltb_spec (P + 300 * 1000) T'); [lia|]. simpl. by rewrite Ht.
  - intros Hexp.
    unfold Cache.getCachedData, Cache.NodeCache_get, Cache.NodeCache_set. simpl.
    rewrite lookup_insert_eq. simpl. unfold Cache.stdTTL.
    destruct (Z.ltb_spec (P + 300 * 1000) T'); [|lia]. simpl.
    by rewrite (file_expired _ _ _ _ Hf).
Qed.

Lemma getCachedData_promotes_witness :
  let restarted :=
    Cache.newInstance (stored 0 "holderList_mint" "holders" emptyStore) in
  let promoted :=
    snd (Cache.getCachedData nonEmpty 299000 "holderList_mint" restarted) in
  Cache.expiry <$> Cache.files promoted !! "holderList_mint" = Some 300000
  ∧ fst (Cache.getCachedData nonEmpty 599000 "holderList_mint" promoted)
    = Some "holders".
Proof.
  destruct (getCachedData_promotes nonEmpty "holderList_mint"
              {| Cache.data := "holders"; Cache.expiry := 300000 |} 299000
              (Cache.newInstance (stored 0 "holderList_mint" "holders" emptyStore)))
    as (_ & _ & Hserved & _); [reflexivity | reflexivity | reflexivity | reflexivity |].
  split; [reflexivity|]. cbv zeta. rewrite Hserved; [reflexivity | lia].
Defined.

(** ** The resilient fetcher *)

Section RetryFacts.
Variable settings : Settings.

Lemma fetch_sent r w :
  fetch r w = (match outcome (upstream w (calls w) r) with
               | Rejected e => Throw e
               | Resolved resp => Ok resp
               end, sent r w).
Proof. unfold fetch, sent. by destruct (outcome _). Qed.

Lemma attempt_failure url options w e :
  attemptFailure (upstream w (calls w) (retryRequest settings url options)) = Some e →
  attempt settings url options w = (Throw e, sent (retryRequest settings url options) w).
Proof.
  unfold attemptFailure, attempt, bind, liftResult, throw. rewrite fetch_sent.
  destruct (outcome _) as [e'|r]; [by intros [= ->]|].
  destruct (ok r); simpl.
  - destruct (json r); [done | by intros [= ->]].
  - destruct (text r); by intros [= ->].
Qed.

Lemma attempt_success url options w :
  attemptFailure (upstream w (calls w) (retryRequest settings url options)) = None →
  ∃ data, attempt settings url options w
          = (Ok data, sent (retryRequest settings url options) w).
Proof.
  unfold attemptFailure, attempt, bind, liftResult, throw. rewrite fetch_sent.
  destruct (outcome _) as [e'|r]; [done|].
  destruct (ok r); simpl.
  - destruct (json r); [eauto | done].
  - by destruct (text r).
Qed.

End RetryFacts.



(** ** The trend of the unique wallets *)

(** Comparison of doubles is antisymmetric. *)
Lemma SFcompare_antisym x y : SFcompare y x = CompOpp <$> SFcompare x y.
Proof.
  destruct x as [sx|sx| |sx mx ex], y as [sy|sy| |sy my ey]; simpl;
    try destruct sx; try destruct sy; try reflexivity.
  - rewrite (Z.compare_antisym ey ex). destruct (ey ?= ex); simpl; try reflexivity.
    rewrite CompOpp_involutive. by rewrite (Pos.compare_cont_antisym my mx Eq).
  - rewrite (Z.compare_antisym ey ex). destruct (ey ?= ex); simpl; try reflexivity.
    by rewrite (Pos.compare_cont_antisym mx my Eq).
Qed.

Lemma float_leb_not_gt (x y : float) : (x <=? y)%float = true → (y <? x)%float = false.
Proof.
  rewrite leb_spec, ltb_spec. unfold SFleb, SFltb.
  rewrite (SFcompare_antisym (Prim2SF x) (Prim2SF y)).
  by destruct (SFcompare (Prim2SF x) (Prim2SF y)) as [[]|].
Qed.

Lemma float_ltb_leb (x y : float) : (x <? y)%float = true → (x <=? y)%float = true.
Proof.
  rewrite leb_spec, ltb_spec. unfold SFleb, SFltb.
  by destruct (SFcompare (Prim2SF x) (Prim2SF y)) as [[]|].
Qed.

Lemma Prim2SF_ten : Prim2SF 10 = S754_finite false 5629499534213120 (-49).
Proof. vm_compute. reflexivity. Qed.

Lemma Prim2SF_minus_ten : Prim2SF (-10) = S754_finite true 5629499534213120 (-49).
Proof. vm_compute. reflexivity. Qed.

(** Below a negative number is not above a positive one. *)
Lemma SFltb_negative_positive a m e m' e' :
  SFltb a (S754_finite true m e) = true → SFltb (S754_finite false m' e') a = false.
Proof.
  unfold SFltb. destruct a as [s|s| |s ma ea]; try destruct s; try done.
Qed.

Lemma float_below_minus_ten_not_above_ten (x : float) :
  (x <? -10)%float = true → (10 <? x)%float = false.
Proof.
  rewrite !ltb_spec, Prim2SF_ten, Prim2SF_minus_ten.
  apply SFltb_negative_positive.
Qed.
Lemma analyzeHolderDistribution_unfold tradeData :
  analyzeHolderDistribution tradeData
  = let values := validChangesOf (uniqueWalletChanges tradeData) in
    match values with
    | [] => "stable"
    | _ :: _ =>
        if (10 <? arithmeticMean values)%float then "increasing"
        else if (arithmeticMean values <? -10)%float then "decreasing"
        else "stable"
    end.
Proof.
  unfold analyzeHolderDistribution. cbn [map snd]. fold (uniqueWalletChanges tradeData).
  by destruct (validChangesOf (uniqueWalletChanges tradeData)).
Qed.

(** [analyzeHolderDistribution] takes the six unique-wallet changes,
    drops the [null] and [undefined] ones, answers "stable" when none is
    left, and otherwise classifies their arithmetic mean: above 10
    "increasing", below -10 "decreasing", and from -10 to 10, both bounds
    included, "stable". *)
Theorem analyzeHolderDistribution_classifies tradeData :
  let values := validChangesOf (uniqueWalletChanges tradeData) in
  let mean := arithmeticMean values in
  (values = [] → analyzeHolderDistribution tradeData = "stable")
  ∧ (values ≠ [] →
       ((10 <? mean)%float = true → analyzeHolderDistribution tradeData = "increasing")
       ∧ ((mean <? -10)%float = true →
            analyzeHolderDistribution tradeData = "decreasing")
       ∧ ((-10 <=? mean)%float = true → (mean <=? 10)%float = true →
            analyzeHolderDistribution tradeData = "stable")).
Proof.
  intros values mean. rewrite analyzeHolderDistribution_unfold. fold values. cbv zeta.
  split; [by intros ->|].
  intros Hne. destruct values as [|v vs] eqn:E; [done|]. fold mean.
  split; [|split].
  - by intros ->.
  - intros Hlt. by rewrite (float_below_minus_ten_not_above_ten _ Hlt), Hlt.
  - intros Hlo Hhi.
    by rewrite (float_leb_not_gt _ _ Hhi), (float_leb_not_gt _ _ Hlo).
Qed.

(** ** The holder map *)

Section HolderMapFacts.
Context {num : Type}.
Variable add : num → num → num.

Lemma Map_get_set_eq (m : list (string * num)) k v : Map_get (Map_set m k v) k = Some v.
Proof.
  induction m as [|[k' v'] m IH]; simpl.
  - by rewrite decide_True.
  - destruct (decide (k' = k)) as [->|Hne]; simpl.
    + by rewrite decide_True.
    + by rewrite decide_False.
Qed.

Lemma Map_get_set_ne (m : list (string * num)) k k' v :
  k ≠ k' → Map_get (Map_set m k v) k' = Map_get m k'.
Proof.
  intros Hne. induction m as [|[k0 v0] m IH]; simpl.
  - by rewrite decide_False.
  - destruct (decide (k0 = k)) as [->|Hk0]; simpl.
    + by rewrite !decide_False.
    + destruct (decide (k0 = k')); [done | exact IH].
Qed.

(** [set] keeps the order of the keys and puts a new key at the end. *)
Lemma Map_set_keys (m : list (string * num)) k v :
  (Map_set m k v).*1
  = match Map_get m k with Some _ => m.*1 | None => (m.*1 ++ [k])%list end.
Proof.
  induction m as [|[k' v'] m IH]; [done|].
  cbn [Map_set Map_get]. destruct (decide (k' = k)) as [->|Hne]; [done|].
  rewrite !fmap_cons, IH. simpl. by destruct (Map_get m k).
Qed.

Lemma Map_get_None_keys (m : list (string * num)) k : Map_get m k = None ↔ k ∉ m.*1.
Proof.
  induction m as [|[k' v'] m IH]; simpl.
  - split; [intros _; apply not_elem_of_nil | done].
  - rewrite not_elem_of_cons. destruct (decide (k' = k)) as [->|Hne].
    + split; [done | by intros [? _]].
    + rewrite IH. split; [intros ?; split; [congruence | done] | by intros [_ ?]].
Qed.

Lemma Map_set_NoDup (m : list (string * num)) k v : NoDup m.*1 → NoDup (Map_set m k v).*1.
Proof.
  intros Hnd. rewrite Map_set_keys. destruct (Map_get m k) eqn:E; [done|].
  apply NoDup_app. split; [done|]. split.
  - intros x Hx ->%list_elem_of_singleton. by apply Map_get_None_keys in E.
  - apply NoDup_singleton.
Qed.

(** One round of the [forEach]: the owner's entry grows by the balance, or
    starts at it; every other entry stays. *)
Lemma Map_get_accumulate (m : list (string * num)) owner balance k :
  Map_get (accumulate add m owner balance) k
  = if decide (owner = k)
    then Some (match Map_get m k with Some held => add held balance | None => balance end)
    else Map_get m k.
Proof.
  unfold accumulate. destruct (decide (owner = k)) as [->|Hne].
  - destruct (Map_get m k); apply Map_get_set_eq.
  - destruct (Map_get m owner); by apply Map_get_set_ne.
Qed.

Lemma accumulate_NoDup (m : list (string * num)) owner balance :
  NoDup m.*1 → NoDup (accumulate add m owner balance).*1.
Proof. unfold accumulate. destruct (Map_get m owner); apply Map_set_NoDup. Qed.

Lemma Map_get_mergePage page : ∀ (m : list (string * num)) k,
  Map_get (mergePage add page m) k = runningSum add k page (Map_get m k).
Proof.
  induction page as [|[owner balance] page IH]; intros m k; [done|].
  unfold mergePage, runningSum in *. simpl. rewrite IH. f_equal.
  apply Map_get_accumulate.
Qed.

Lemma mergePage_NoDup page : ∀ (m : list (string * num)),
  NoDup m.*1 → NoDup (mergePage add page m).*1.
Proof.
  induction page as [|[owner balance] page IH]; intros m Hnd; [done|].
  unfold mergePage in *. simpl. apply IH. by apply accumulate_NoDup.
Qed.

Lemma runningSum_amounts k page : ∀ init,
  runningSum add k page init = sumOnto add init (amountsOf k page).
Proof.
  induction page as [|[owner balance] page IH]; intros init; [done|].
  unfold runningSum, sumOnto, amountsOf in *. simpl.
  destruct (decide (owner = k)); simpl; apply IH.
Qed.

Lemma amountsOf_app k (p1 p2 : list (string * num)) :
  amountsOf k (p1 ++ p2) = (amountsOf k p1 ++ amountsOf k p2)%list.
Proof. unfold amountsOf. apply omap_app. Qed.

Lemma sumOnto_is_Some held amounts :
  is_Some (sumOnto add held amounts) ↔ is_Some held ∨ amounts ≠ [].
Proof.
  revert held. induction amounts as [|b bs IH]; intros held; simpl.
  - unfold sumOnto. simpl. split; [by left | by intros [?|?]].
  - unfold sumOnto in *. simpl. rewrite IH. split; [by right | by left; eexists].
Qed.

Hypothesis add_assoc : ∀ a b c, add (add a b) c = add a (add b c).
Hypothesis add_comm : ∀ a b, add a b = add b a.

Lemma sumOnto_Some a amounts :
  sumOnto add (Some a) amounts = Some (fold_left add amounts a).
Proof.
  revert a. induction amounts as [|b bs IH]; intros a; [done|].
  unfold sumOnto in *. simpl. apply IH.
Qed.

Lemma fold_add_shift a b amounts :
  fold_left add amounts (add a b) = add a (fold_left add amounts b).
Proof.
  revert b. induction amounts as [|c cs IH]; intros b; [done|].
  simpl. by rewrite add_assoc, IH.
Qed.

Lemma sumOnto_exchange (l1 l2 : list num) :
  sumOnto add None (l1 ++ l2) = sumOnto add None (l2 ++ l1).
Proof.
  destruct l1 as [|a l1]; [by rewrite app_nil_r|].
  destruct l2 as [|b l2]; [by rewrite app_nil_r|].
  unfold sumOnto at 1 2. simpl. fold (sumOnto add (Some a) (l1 ++ b :: l2)).
  fold (sumOnto add (Some b) (l2 ++ a :: l1)).
  rewrite !sumOnto_Some, !fold_left_app. simpl. f_equal.
  rewrite !fold_add_shift. apply add_comm.
Qed.

(** With exact addition the totals of an owner do not depend on the order
    of the two pages. *)
Lemma runningSum_exchange k (p1 p2 : list (string * num)) :
  runningSum add k (p1 ++ p2) None = runningSum add k (p2 ++ p1) None.
Proof. rewrite !runningSum_amounts, !amountsOf_app. apply sumOnto_exchange. Qed.

End HolderMapFacts.

Lemma list_to_map_Map_get {num} (m : list (string * num)) k :
  (list_to_map m : gmap string num) !! k = Map_get m k.
Proof.
  induction m as [|[k' v] m IH]; simpl; [done|].
  destruct (decide (k' = k)) as [->|Hne].
  - by rewrite lookup_insert_eq.
  - by rewrite lookup_insert_ne.
Qed.

Lemma runningSum_app {num} (add : num → num → num) k (p1 p2 : list (string * num)) init :
  runningSum add k (p1 ++ p2) init = runningSum add k p2 (runningSum add k p1 init).
Proof. unfold runningSum. apply fold_left_app. Qed.

(** The [forEach] of [fetchHolderList] is the merge at the addition of
    doubles. *)
Lemma processAccounts_mergePage accounts m :
  processAccounts accounts m = mergePage PrimFloat.add (parsedAccounts accounts) m.
Proof.
  revert m. induction accounts as [|a accounts IH]; intros m; [done|].
  unfold processAccounts, mergePage, parsedAccounts in *. simpl. apply IH.
Qed.

(** Addition of doubles is commutative. *)
Lemma SFadd_comm prec emax x y : SFadd prec emax x y = SFadd prec emax y x.
Proof.
  destruct x as [sx|sx| |sx mx ex], y as [sy|sy| |sy my ey]; simpl;
    try destruct sx; try destruct sy; try reflexivity.
  all: by rewrite (Z.min_comm ey ex), Z.add_comm.
Qed.

Lemma float_add_comm (x y : float) : (x + y)%float = (y + x)%float.
Proof. apply Prim2SF_inj. rewrite !add_spec. apply SFadd_comm. Qed.

(** Merging two pages of holder accounts in either order
    yields maps over the same owners, one entry per owner, and each owner is
    mapped to the sum of all its amounts over both pages, added as doubles
    from the left in the order the accounts were processed. The two maps are
    equal when no owner has more than two accounts over the two pages, and
    for any arithmetic whose addition is associative and commutative. *)
Theorem holder_merge_two_pages (p1 p2 : list TokenAccount) :
  let m12 := processAccounts p2 (processAccounts p1 []) in
  let m21 := processAccounts p1 (processAccounts p2 []) in
  (∀ k, Map_get m12 k
        = sumOnto PrimFloat.add None (amountsOf k (parsedAccounts (p1 ++ p2)))
        ∧ Map_get m21 k
          = sumOnto PrimFloat.add None (amountsOf k (parsedAccounts (p2 ++ p1))))
  ∧ (∀ k, is_Some (Map_get m12 k) ↔ is_Some (Map_get m21 k))
  ∧ NoDup m12.*1 ∧ NoDup m21.*1
  ∧ ((∀ k, (length (amountsOf k (parsedAccounts (p1 ++ p2))) ≤ 2)%nat) →
       (list_to_map m12 : gmap string float) = list_to_map m21)
  ∧ (∀ (num : Type) (add : num → num → num) (q1 q2 : list (string * num)),
       (∀ a b c, add (add a b) c = add a (add b c)) →
       (∀ a b, add a b = add b a) →
       (list_to_map (mergePage add q2 (mergePage add q1 [])) : gmap string num)
       = list_to_map (mergePage add q1 (mergePage add q2 []))).
Proof.
  intros m12 m21.
  assert (Hsum : ∀ k,
    Map_get m12 k = sumOnto PrimFloat.add None (amountsOf k (parsedAccounts (p1 ++ p2)))
    ∧ Map_get m21 k
      = sumOnto PrimFloat.add None (amountsOf k (parsedAccounts (p2 ++ p1)))).
  { intros k. subst m12 m21. rewrite !processAccounts_mergePage, !Map_get_mergePage.
    simpl. rewrite <- !runningSum_app, !runningSum_amounts.
    unfold parsedAccounts. by rewrite !map_app. }
  split; [exact Hsum|]. split; [|split; [|split; [|split]]].
  - intros k. destruct (Hsum k) as [-> ->].
    rewrite !sumOnto_is_Some. unfold parsedAccounts.
    rewrite !map_app, !amountsOf_app.
    split; (intros [[? [=]]|Hne]; right; intros [E1 E2]%app_eq_nil; apply Hne;
            by rewrite E1, E2).
  - subst m12. rewrite !processAccounts_mergePage. apply mergePage_NoDup.
    apply mergePage_NoDup. apply NoDup_nil_2.
  - subst m21. rewrite !processAccounts_mergePage. apply mergePage_NoDup.
    apply mergePage_NoDup. apply NoDup_nil_2.
  - intros Hfew. apply map_eq. intros k. rewrite !list_to_map_Map_get.
    destruct (Hsum k) as [-> ->]. specialize (Hfew k). revert Hfew.
    unfold parsedAccounts. rewrite !map_app, !amountsOf_app.
    destruct (amountsOf k (map _ p1)) as [|a [|a' [|? ?]]],
             (amountsOf k (map _ p2)) as [|b [|b' [|? ?]]];
      simpl; intros Hfew; try reflexivity; try lia.
    unfold sumOnto. simpl. f_equal. apply float_add_comm.
  - intros num add q1 q2 Hassoc Hcomm. apply map_eq. intros k.
    rewrite !list_to_map_Map_get, !Map_get_mergePage. simpl.
    rewrite <- !runningSum_app. by apply runningSum_exchange.
Qed.


(** The two orders can differ: an owner with two accounts of 1 on one page
    and an account of 10^16 on the other ends at 10000000000000002 when the
    first page is merged first and at 10000000000000000 otherwise, because
    adding 1 to 10^16 rounds back to 10^16. *)
Example holder_merge_order_matters :
  let page1 := [ {| owner := "owner1"; amount := 1 |};
                 {| owner := "owner1"; amount := 1 |} ] in
  let page2 := [ {| owner := "owner1"; amount := 10000000000000000 |} ] in
  materialize (processAccounts page2 (processAccounts page1 []))
    = [ {| address := "owner1"; balance := "10000000000000002" |} ]
  ∧ materialize (processAccounts page1 (processAccounts page2 []))
    = [ {| address := "owner1"; balance := "10000000000000000" |} ].
Proof. vm_compute. split; reflexivity. Qed.

(** ** Worlds *)

Lemma sent_calls r w : calls (sent r w) = S (calls w).
Proof. reflexivity. Qed.
Lemma sent_upstream r w : upstream (sent r w) = upstream w.
Proof. reflexivity. Qed.
Lemma sent_trace r w : trace (sent r w) = (trace w ++ [EvFetch r])%list.
Proof. reflexivity. Qed.
Lemma sent_now r w :
  now (sent r w) = now w + Z.of_N (latency (upstream w (calls w) r)).
Proof. reflexivity. Qed.

Lemma sameStores_refl w : sameStores w w.
Proof. by repeat split. Qed.


(** ** The resilient fetcher, attempt by attempt *)

Section RetrySteps.
Variable settings : Settings.
Variable url : string.
Variable options : RequestInit.

Let r := retryRequest settings url options.

Lemma attempt_returns w data :
  attemptSuccess (upstream w (calls w) r) = Some data →
  attempt settings url options w = (Ok data, sent r w).
Proof.
  unfold attemptSuccess, attempt, bind, liftResult, throw. rewrite fetch_sent.
  fold r. destruct (outcome _) as [e'|resp]; [done|].
  destruct (ok resp); [|done]. simpl. destruct (json resp); [by intros [= ->] | done].
Qed.

Lemma attempt_outcome ex :
  (∃ e, attemptFailure ex = Some e ∧ attemptSuccess ex = None)
  ∨ (∃ data, attemptSuccess ex = Some data ∧ attemptFailure ex = None).
Proof.
  unfold attemptFailure, attemptSuccess. destruct (outcome ex) as [e|resp]; [left; eauto|].
  destruct (ok resp).
  - destruct (json resp); [right | left]; eauto.
  - destruct (text resp); left; eauto.
Qed.

Lemma retryFrom_failure remaining i lastError w e :
  attemptFailure (upstream w (calls w) r) = Some e →
  retryFrom settings (S remaining) i lastError url options w
  = retryFrom settings remaining (i + 1) e url options (afterFailure r i w).
Proof.
  intros H. cbn [retryFrom]. unfold tryCatch at 1.
  rewrite (attempt_failure settings url options w e H). fold r.
  unfold afterFailure. by destruct (i <? PROVIDER_CONFIG.MAX_RETRIES - 1).
Qed.

Lemma retryFrom_success remaining i lastError w data :
  attemptSuccess (upstream w (calls w) r) = Some data →
  retryFrom settings (S remaining) i lastError url options w = (Ok data, sent r w).
Proof.
  intros H. cbn [retryFrom]. unfold tryCatch at 1.
  by rewrite (attempt_returns w data H).
Qed.

End RetrySteps.

(** When the first [n] attempts of [fetchWithRetry] fail and the next one
    succeeds ([n] at most 2), it returns the JSON of that attempt, having
    sent [n + 1] requests with the backoffs 2000 ms and 4000 ms between
    them, and sends nothing more. *)
Theorem fetchWithRetry_first_success settings url options w n data :
  let r := retryRequest settings url options in
  (n ≤ 2)%nat →
  (∀ j, (j < n)%nat → is_Some (attemptFailure (upstream w (calls w + j)%nat r))) →
  attemptSuccess (upstream w (calls w + n)%nat r) = Some data →
  ∃ w',
    fetchWithRetry settings url options w = (Ok data, w')
    ∧ trace w' = (trace w ++ failedAttempts r 0 n ++ [EvFetch r])%list
    ∧ calls w' = (calls w + n + 1)%nat.
Proof.
  intros r Hn Hfail Hok. unfold fetchWithRetry.
  change (Z.to_nat PROVIDER_CONFIG.MAX_RETRIES) with 3%nat.
  destruct n as [|[|[|n]]]; [| | |lia].
  - rewrite Nat.add_0_r in Hok.
    rewrite (retryFrom_success settings url options _ _ _ w data Hok).
    eexists. split; [reflexivity|]. rewrite sent_trace, sent_calls. split; [done|lia].
  - destruct (Hfail 0%nat) as [e1 H1]; [lia|]. rewrite Nat.add_0_r in H1.
    rewrite (retryFrom_failure settings url options _ _ _ w e1 H1).
    rewrite (retryFrom_success settings url options _ _ _ (afterFailure r 0 w) data).
    + eexists. split; [reflexivity|]. split.
      * change (afterFailure r 0 w) with (snd (sleep 2000 (sent r w))).
        rewrite sent_trace. simpl. by rewrite <- !app_assoc.
      * change (afterFailure r 0 w) with (snd (sleep 2000 (sent r w))).
        rewrite sent_calls. simpl. lia.
    + change (afterFailure r 0 w) with (snd (sleep 2000 (sent r w))). simpl.
      by rewrite Nat.add_1_r in Hok.
  - destruct (Hfail 0%nat) as [e1 H1]; [lia|]. rewrite Nat.add_0_r in H1.
    destruct (Hfail 1%nat) as [e2 H2]; [lia|]. rewrite Nat.add_1_r in H2.
    rewrite (retryFrom_failure settings url options _ _ _ w e1 H1).
    change (afterFailure r 0 w) with (snd (sleep 2000 (sent r w))).
    rewrite (retryFrom_failure settings url options _ _ _ _ e2) by exact H2.
    change (afterFailure r (0 + 1) (snd (sleep 2000 (sent r w))))
      with (snd (sleep 4000 (sent r (snd (sleep 2000 (sent r w)))))).
    rewrite (retryFrom_success settings url options _ _ _ _ data).
    + eexists. split; [reflexivity|]. split.
      * rewrite sent_trace. simpl. by rewrite <- !app_assoc.
      * rewrite sent_calls. simpl. lia.
    + simpl. by replace (calls w + 2)%nat with (S (S (calls w))) in Hok by lia.
Qed.

Lemma fetchWithRetry_first_success_witness :
  let r := retryRequest exampleSettings "https://public-api.birdeye.so/x" noOptions in
  let w := freshWorld failsOnce in
  ∃ w',
    fetchWithRetry exampleSettings "https://public-api.birdeye.so/x" noOptions w
      = (Ok (JsonSecurity {| success := true; payload := Some exampleSecurity |}), w')
    ∧ trace w' = (trace w ++ failedAttempts r 0 1 ++ [EvFetch r])%list
    ∧ calls w' = (calls w + 1 + 1)%nat.
Proof.
  apply (fetchWithRetry_first_success exampleSettings "https://public-api.birdeye.so/x"
           noOptions (freshWorld failsOnce) 1
           (JsonSecurity {| success := true; payload := Some exampleSecurity |})).
  - lia.
  - intros j Hj. replace j with 0%nat by lia. vm_compute. eauto.
  - vm_compute. reflexivity.
Defined.

Lemma fetchWithRetry_shape settings url options w :
  let r := retryRequest settings url options in
  let w' := snd (fetchWithRetry settings url options w) in
  ∃ n, (n ≤ 2)%nat
    ∧ trace w' = (trace w ++ failedAttempts r 0 n ++ [EvFetch r])%list
    ∧ calls w' = (calls w + n + 1)%nat
    ∧ upstream w' = upstream w
    ∧ sameStores w w'
    ∧ (∀ e, fst (fetchWithRetry settings url options w) = Throw e →
         n = 2%nat ∧ attemptFailure (upstream w (calls w + 2)%nat r) = Some e).
Proof.
  intros r w'. subst w'. unfold fetchWithRetry.
  change (Z.to_nat PROVIDER_CONFIG.MAX_RETRIES) with 3%nat.
  destruct (attempt_outcome (upstream w (calls w) r)) as [(e1 & H1 & _)|(d & Hd & _)].
  2:{ rewrite (retryFrom_success settings url options _ _ _ w d Hd).
      exists 0%nat. simpl. rewrite Nat.add_0_r. repeat split; try done; lia. }
  rewrite (retryFrom_failure settings url options _ _ _ w e1 H1).
  change (afterFailure (retryRequest settings url options) 0 w)
    with (snd (sleep 2000 (sent r w))).
  destruct (attempt_outcome (upstream w (S (calls w)) r)) as [(e2 & H2 & _)|(d & Hd & _)].
  2:{ rewrite (retryFrom_success settings url options _ _ _ _ d) by exact Hd.
      exists 1%nat. simpl. rewrite <- !app_assoc. repeat split; try done; lia. }
  rewrite (retryFrom_failure settings url options _ _ _ _ e2) by exact H2.
  change (afterFailure (retryRequest settings url options) (0 + 1)
            (snd (sleep 2000 (sent r w))))
    with (snd (sleep 4000 (sent r (snd (sleep 2000 (sent r w)))))).
  destruct (attempt_outcome (upstream w (S (S (calls w))) r))
    as [(e3 & H3 & _)|(d & Hd & _)].
  2:{ rewrite (retryFrom_success settings url options _ _ _ _ d) by exact Hd.
      exists 2%nat. simpl. rewrite <- !app_assoc. repeat split; try done; lia. }
  rewrite (retryFrom_failure settings url options _ _ _ _ e3) by exact H3.
  exists 2%nat. simpl. rewrite <- !app_assoc. unfold throw. simpl.
  split; [lia|]. split; [done|]. split; [lia|]. split; [done|]. split; [done|].
  intros e [= <-]. split; [done|].
  by replace (calls w + 2)%nat with (S (S (calls w))) by lia.
Qed.

(** In every world [fetchWithRetry] sends one, two or three requests,
    separated by backoffs of 2000 ms and 4000 ms, waits after none that
    is its last, leaves the caches alone, and throws only when the third
    request has failed, the error of that request. *)
Theorem fetchWithRetry_bounded settings url options w :
  let r := retryRequest settings url options in
  let w' := snd (fetchWithRetry settings url options w) in
  ∃ n, (n ≤ 2)%nat
    ∧ trace w' = (trace w ++ failedAttempts r 0 n ++ [EvFetch r])%list
    ∧ calls w' = (calls w + n + 1)%nat
    ∧ upstream w' = upstream w
    ∧ sameStores w w'
    ∧ (∀ e, fst (fetchWithRetry settings url options w) = Throw e →
         n = 2%nat ∧ attemptFailure (upstream w (calls w + 2)%nat r) = Some e).
Proof. exact (fetchWithRetry_shape settings url options w). Qed.

(** ** The fetchers *)

Lemma getCachedData_run {V} (L : StoreLens V) cacheKey w :
  getCachedData L cacheKey w = (Ok (cached L cacheKey w), asked L cacheKey w).
Proof.
  unfold getCachedData, cached, asked.
  by destruct (Cache.getCachedData objectTruthy (now w) cacheKey (getStore L w)).
Qed.

Lemma fetchJsonOrUndefined_run r w :
  fetchJsonOrUndefined r w = (Ok (bodyOf (upstream w (calls w) r)), sent r w).
Proof.
  unfold fetchJsonOrUndefined, tryCatch, bind, liftResult, ret, bodyOf.
  rewrite fetch_sent. destruct (outcome _) as [e|resp]; [done|].
  by destruct (json resp).
Qed.

(** A miss leaves no entry of the key behind, in either tier. *)
Lemma getCachedData_miss_clears {V} cacheKey time (st : Cache.TwoTier V) :
  fst (Cache.getCachedData objectTruthy time cacheKey st) = None →
  Cache.memory (snd (Cache.getCachedData objectTruthy time cacheKey st)) !! cacheKey = None
  ∧ Cache.files (snd (Cache.getCachedData objectTruthy time cacheKey st)) !! cacheKey = None.
Proof.
  unfold Cache.getCachedData, Cache.NodeCache_get, Cache.readCacheFromFile.
  destruct (Cache.memory st !! cacheKey) as [e|] eqn:Em;
    [destruct (Cache.m_t e <? time); [|done]|]; simpl;
    (destruct (Cache.files st !! cacheKey) as [f|] eqn:Ef;
     [destruct (time <? Cache.expiry f); [done|]|]); simpl; intros _;
    rewrite ?lookup_delete_eq; done.
Qed.

Lemma no_entry_no_hit {V} cacheKey time (st : Cache.TwoTier V) :
  Cache.memory st !! cacheKey = None → Cache.files st !! cacheKey = None →
  fst (Cache.getCachedData objectTruthy time cacheKey st) = None.
Proof.
  intros Em Ef. unfold Cache.getCachedData, Cache.NodeCache_get, Cache.readCacheFromFile.
  by rewrite Em, Ef.
Qed.

(** Right after a write the memory tier answers with the written value,
    whether or not the file could be written. *)
Lemma cached_after_set {V} `{Jsonable V} (d : V) fault cacheKey time
    (st : Cache.TwoTier V) time' :
  time' ≤ time + 300000 →
  fst (Cache.getCachedData objectTruthy time' cacheKey
         (snd (Cache.setCachedData fault time cacheKey d st))) = Some d.
Proof.
  intros Hle. unfold Cache.getCachedData, Cache.NodeCache_get, Cache.setCachedData,
    Cache.writeCacheToFile, Cache.NodeCache_set.
  destruct fault; simpl; rewrite lookup_insert_eq; simpl; unfold Cache.stdTTL;
    by destruct (Z.ltb_spec (time + 300 * 1000) time'); [lia|].
Qed.

(** A live entry of the memory tier is what a read returns. *)
Lemma hit_of_entry {V} cacheKey time (st : Cache.TwoTier V) d t :
  Cache.memory st !! cacheKey = Some {| Cache.m_value := d; Cache.m_t := t |} →
  time ≤ t →
  fst (Cache.getCachedData objectTruthy time cacheKey st) = Some d.
Proof.
  intros Em Hle. unfold Cache.getCachedData, Cache.NodeCache_get. rewrite Em. simpl.
  by destruct (Z.ltb_spec t time); [lia|].
Qed.

(** What is cached right after [setCachedData]. *)
Ltac cached_set :=
  unfold cached;
  first
    [ match goal with
      | |- fst (Cache.getCachedData _ _ _
                  (getStore ?L (written (putStore ?L ?st ?w)))) = _ =>
          change (getStore L (written (putStore L st w))) with st
      end;
      apply cached_after_set; simpl; lia
    | simpl; eapply hit_of_entry;
      [ unfold Cache.NodeCache_set; apply lookup_insert_eq
      | simpl; unfold Cache.stdTTL; lia ] ].

(** The fetchers copy the fields of a payload one by one. *)
Lemma TokenTradeData_eta d :
  {| holder := holder d;
     price := price d;
     price_change_12h_percent := price_change_12h_percent d;
     price_change_24h_percent := price_change_24h_percent d;
     unique_wallet_24h := unique_wallet_24h d;
     volume_24h_usd := volume_24h_usd d;
     unique_wallet_30m_change_percent := unique_wallet_30m_change_percent d;
     unique_wallet_1h_change_percent := unique_wallet_1h_change_percent d;
     unique_wallet_2h_change_percent := unique_wallet_2h_change_percent d;
     unique_wallet_4h_change_percent := unique_wallet_4h_change_percent d;
     unique_wallet_8h_change_percent := unique_wallet_8h_change_percent d;
     unique_wallet_24h_change_percent := unique_wallet_24h_change_percent d |} = d.
Proof. by destruct d. Qed.

Lemma TokenSecurityData_eta d :
  {| ownerBalance := ownerBalance d;
     creatorBalance := creatorBalance d;
     ownerPercentage := ownerPercentage d;
     creatorPercentage := creatorPercentage d;
     top10HolderBalance := top10HolderBalance d;
     top10HolderPercent := top10HolderPercent d |} = d.
Proof. by destruct d. Qed.

Lemma setCachedData_run {V} `{Jsonable V} (L : StoreLens V) cacheKey (d : V) w :
  setCachedData L cacheKey d w
  = (match writeFault cacheKey w with
     | None => Ok tt
     | Some e => Throw e
     end,
     written (putStore L
                (snd (Cache.setCachedData (writeFault cacheKey w) (now w) cacheKey d
                        (getStore L w))) w)).
Proof.
  unfold setCachedData, writeFault, Cache.setCachedData, Cache.writeCacheToFile.
  by destruct (diskFault w (writes w) cacheKey).
Qed.



(** A hit is still a hit when the cache is asked again at the same
    instant. *)
Lemma getCachedData_hit_again {V} (d : V) cacheKey time (st : Cache.TwoTier V) :
  fst (Cache.getCachedData objectTruthy time cacheKey st) = Some d →
  fst (Cache.getCachedData objectTruthy time cacheKey
         (snd (Cache.getCachedData objectTruthy time cacheKey st))) = Some d.
Proof.
  unfold Cache.getCachedData at 1 3, Cache.NodeCache_get.
  destruct (Cache.memory st !! cacheKey) as [e|] eqn:Em.
  - destruct (Z.ltb_spec (Cache.m_t e) time) as [Hexp|Hlive]; simpl.
    + unfold Cache.readCacheFromFile.
      destruct (Cache.files st !! cacheKey) as [f|]; [|done].
      destruct (time <? Cache.expiry f); [|done]. simpl. intros [= <-].
      unfold Cache.getCachedData, Cache.NodeCache_get, Cache.NodeCache_set. simpl.
      rewrite lookup_insert_eq. simpl. unfold Cache.stdTTL.
      by destruct (Z.ltb_spec (time + 300 * 1000) time); [lia|].
    + intros [= <-]. unfold Cache.getCachedData, Cache.NodeCache_get. simpl.
      rewrite Em. by destruct (Z.ltb_spec (Cache.m_t e) time); [lia|].
  - simpl. unfold Cache.readCacheFromFile.
    destruct (Cache.files st !! cacheKey) as [f|]; [|done].
    destruct (time <? Cache.expiry f); [|done]. simpl. intros [= <-].
    unfold Cache.getCachedData, Cache.NodeCache_get, Cache.NodeCache_set. simpl.
    rewrite lookup_insert_eq. simpl. unfold Cache.stdTTL.
    by destruct (Z.ltb_spec (time + 300 * 1000) time); [lia|].
Qed.

Section FetcherFacts.
Variable settings : Settings.
Variable tokenAddress : string.

(** What [fetchTokenSecurity] returns is in the cache when it returns. *)
Lemma fetchTokenSecurity_cached w d w' :
  fetchTokenSecurity settings tokenAddress w = (Ok d, w') →
  cached securityLens ("tokenSecurity_" ++ tokenAddress) w' = Some d.
Proof.
  unfold fetchTokenSecurity. unfold bind at 1. rewrite getCachedData_run.
  destruct (cached securityLens _ w) as [c|] eqn:Hc.
  - intros [= <- <-]. unfold cached, asked in *. simpl.
    by apply getCachedData_hit_again.
  - unfold bind at 1.
    destruct (fetchWithRetry settings (securityUrl tokenAddress) noOptions _)
      as [[data|e] w1]; [|done].
    destruct data as [[[] [p|]]| | | |]; try done.
    rewrite TokenSecurityData_eta. unfold bind at 1. rewrite setCachedData_run.
    destruct (writeFault _ _); [done|]. unfold ret. intros [= <- <-]. cached_set.
Qed.

Lemma fetchTokenTradeData_cached w d w' :
  fetchTokenTradeData settings tokenAddress w = (Ok d, w') →
  cached tradeLens ("tokenTradeData_" ++ tokenAddress) w' = Some d.
Proof.
  unfold fetchTokenTradeData. unfold bind at 1. rewrite getCachedData_run.
  destruct (cached tradeLens _ w) as [c|] eqn:Hc.
  - intros [= <- <-]. unfold cached, asked in *. simpl.
    by apply getCachedData_hit_again.
  - unfold bind at 1. rewrite fetchJsonOrUndefined_run.
    destruct (bodyOf _) as [[|[[] [p|]]| | |]|]; try done.
    rewrite TokenTradeData_eta. unfold bind at 1. rewrite setCachedData_run.
    destruct (writeFault _ _); [done|]. unfold ret. intros [= <- <-]. cached_set.
Qed.

End FetcherFacts.

(** ** The holder list *)

Section HolderListFacts.
Variable settings : Settings.
Variable tokenAddress : string.

Lemma holderLoop_done page cursor m w :
  page > 2 → holderLoop settings tokenAddress page cursor m w = (Ok m, w).
Proof.
  intros H. rewrite holderLoop_unfold_eq. unfold holderLoop_unfold.
  by destruct (decide (page > 2)).
Qed.

Lemma holderLoop_step page cursor m w :
  ¬ page > 2 →
  let r := heliusRequest settings tokenAddress cursor in
  match bodyOf (upstream w (calls w) r) with
  | None => ∃ e, holderLoop settings tokenAddress page cursor m w = (Throw e, sent r w)
  | Some data =>
      holderLoop settings tokenAddress page cursor m w
      = match pageOf data with
        | None => (Ok m, sent r w)
        | Some (accounts, next) =>
            holderLoop settings tokenAddress (page + 1) next
              (processAccounts accounts m) (sent r w)
        end
  end.
Proof.
  intros H r. rewrite holderLoop_unfold_eq. unfold holderLoop_unfold.
  destruct (decide (page > 2)); [done|]. simpl.
  unfold bind, liftResult, bodyOf. rewrite fetch_sent. fold r.
  destruct (outcome _) as [e|resp]; [by eexists|].
  destruct (json resp) as [data|e]; [|by eexists].
  by destruct (pageOf data) as [[accounts next]|].
Qed.

(** The whole loop, from its start: at most two pages are asked for. *)
Lemma holderLoop_from_start w :
  let r1 := heliusRequest settings tokenAddress None in
  match bodyOf (upstream w (calls w) r1) with
  | None => ∃ e, holderLoop settings tokenAddress 1 None [] w = (Throw e, sent r1 w)
  | Some data1 =>
      match pageOf data1 with
      | None => holderLoop settings tokenAddress 1 None [] w = (Ok [], sent r1 w)
      | Some (accounts1, next) =>
          let r2 := heliusRequest settings tokenAddress next in
          match bodyOf (upstream w (S (calls w)) r2) with
          | None =>
              ∃ e, holderLoop settings tokenAddress 1 None [] w
                   = (Throw e, sent r2 (sent r1 w))
          | Some data2 =>
              holderLoop settings tokenAddress 1 None [] w
              = (Ok (match pageOf data2 with
                     | None => processAccounts accounts1 []
                     | Some (accounts2, _) =>
                         processAccounts accounts2 (processAccounts accounts1 [])
                     end),
                 sent r2 (sent r1 w))
          end
      end
  end.
Proof.
  intros r1.
  pose proof (holderLoop_step 1 None [] w ltac:(lia)) as S1. cbv zeta in S1. fold r1 in S1.
  destruct (bodyOf (upstream w (calls w) r1)) as [data1|]; [|exact S1].
  destruct (pageOf data1) as [[accounts1 next]|]; [|exact S1].
  intros r2.
  pose proof (holderLoop_step (1 + 1) next (processAccounts accounts1 []) (sent r1 w)
                ltac:(lia)) as S2.
  cbv zeta in S2. fold r2 in S2. rewrite sent_upstream, sent_calls in S2.
  destruct (bodyOf (upstream w (S (calls w)) r2)) as [data2|].
  - rewrite S1, S2. destruct (pageOf data2) as [[accounts2 next2]|]; [|done].
    by apply holderLoop_done.
  - destruct S2 as [e S2]. exists e. by rewrite S1.
Qed.

End HolderListFacts.

Section HolderListResults.
Variable settings : Settings.
Variable tokenAddress : string.

Let cacheKey := "holderList_" ++ tokenAddress.

Lemma fetchHolderList_hit w hs :
  cached holderLens cacheKey w = Some hs →
  fetchHolderList settings tokenAddress w = (Ok hs, asked holderLens cacheKey w).
Proof.
  intros H. unfold fetchHolderList. fold cacheKey. unfold bind at 1.
  by rewrite getCachedData_run, H.
Qed.

Lemma fetchHolderList_miss w :
  cached holderLens cacheKey w = None →
  fetchHolderList settings tokenAddress w
  = match holderLoop settings tokenAddress 1 None [] (asked holderLens cacheKey w) with
    | (Ok m, w1) =>
        (match writeFault cacheKey w1 with
         | None => Ok (materialize m)
         | Some _ => Throw (JsError "Failed to fetch holder list from Helius.")
         end,
         afterSet holderLens cacheKey (materialize m) w1)
    | (Throw _, w1) => (Throw (JsError "Failed to fetch holder list from Helius."), w1)
    end.
Proof.
  intros H. unfold fetchHolderList. fold cacheKey. unfold bind at 1.
  rewrite getCachedData_run, H. unfold tryCatch. unfold bind at 1.
  destruct (holderLoop _ _ _ _ _ _) as [[m|e] w1]; [|done].
  unfold bind, afterSet. rewrite setCachedData_run. simpl.
  by destruct (writeFault cacheKey w1).
Qed.

(** [setCachedData] touches the holder store and nothing else, and leaves
    the value in the memory tier. *)
Lemma afterSet_holder (d : list HolderData) w1 :
  let w2 := afterSet holderLens cacheKey d w1 in
  trace w2 = trace w1 ∧ calls w2 = calls w1 ∧ upstream w2 = upstream w1
  ∧ securityStore w2 = securityStore w1 ∧ tradeStore w2 = tradeStore w1
  ∧ dexStore w2 = dexStore w1
  ∧ cached holderLens cacheKey w2 = Some d.
Proof.
  unfold afterSet. rewrite setCachedData_run. cbn [snd]. split_and!; try done. cached_set.
Qed.



End HolderListResults.





Lemma fetchHolderList_shape settings tokenAddress w :
  let cacheKey := "holderList_" ++ tokenAddress in
  let res := fst (fetchHolderList settings tokenAddress w) in
  let w' := snd (fetchHolderList settings tokenAddress w) in
  ∃ cursors : list (option string),
    (length cursors ≤ 2)%nat
    ∧ trace w' = (trace w ++ (EvFetch ∘ heliusRequest settings tokenAddress <$> cursors))%list
    ∧ calls w' = (calls w + length cursors)%nat
    ∧ upstream w' = upstream w
    ∧ securityStore w' = securityStore w
    ∧ tradeStore w' = tradeStore w
    ∧ dexStore w' = dexStore w
    ∧ (∀ e, res = Throw e →
         e = JsError "Failed to fetch holder list from Helius."
         ∧ (cached holderLens cacheKey w' = None
            ∨ ∃ hs err, writeFault cacheKey w = Some err
                        ∧ cached holderLens cacheKey w' = Some hs))
    ∧ (∀ hs, res = Ok hs → cached holderLens cacheKey w' = Some hs).
Proof.
  intros cacheKey res w'. subst res w'.
  destruct (cached holderLens cacheKey w) as [hs|] eqn:Hc.
  { rewrite (fetchHolderList_hit settings tokenAddress w hs Hc). exists [].
    simpl. rewrite app_nil_r, Nat.add_0_r. split_and!; try done; try lia.
    intros hs' [= <-]. unfold cached, asked in *. simpl.
    by apply getCachedData_hit_again. }
  rewrite (fetchHolderList_miss settings tokenAddress w Hc). fold cacheKey.
  assert (Hnone : ∀ w1, holderStore w1 = holderStore (asked holderLens cacheKey w) →
                        cached holderLens cacheKey w1 = None).
  { intros w1 E. unfold cached. simpl. rewrite E. simpl.
    destruct (getCachedData_miss_clears cacheKey (now w) (holderStore w) Hc) as [Em Ef].
    by apply no_entry_no_hit. }
  assert (Hset : ∀ (hs : list HolderData) w1 cursors,
    trace w1 = (trace w ++ (EvFetch ∘ heliusRequest settings tokenAddress <$> cursors))%list →
    calls w1 = (calls w + length cursors)%nat →
    upstream w1 = upstream w → securityStore w1 = securityStore w →
    tradeStore w1 = tradeStore w → dexStore w1 = dexStore w →
    writeFault cacheKey w1 = writeFault cacheKey w →
    let res := match writeFault cacheKey w1 with
               | None => Ok hs
               | Some _ => Throw (JsError "Failed to fetch holder list from Helius.")
               end in
    let w' := afterSet holderLens cacheKey hs w1 in
    trace w' = (trace w ++ (EvFetch ∘ heliusRequest settings tokenAddress <$> cursors))%list
    ∧ calls w' = (calls w + length cursors)%nat
    ∧ upstream w' = upstream w
    ∧ securityStore w' = securityStore w
    ∧ tradeStore w' = tradeStore w
    ∧ dexStore w' = dexStore w
    ∧ (∀ e, res = Throw e →
         e = JsError "Failed to fetch holder list from Helius."
         ∧ (cached holderLens cacheKey w' = None
            ∨ ∃ hs err, writeFault cacheKey w = Some err
                        ∧ cached holderLens cacheKey w' = Some hs))
    ∧ (∀ hs, res = Ok hs → cached holderLens cacheKey w' = Some hs)).
  { intros hs w1 cursors Htr Hca Hup Hs Ht Hd Hf.
    destruct (afterSet_holder tokenAddress hs w1)
      as (Htr' & Hca' & Hup' & Hs' & Ht' & Hd' & Hcached).
    fold cacheKey in Htr', Hca', Hup', Hs', Ht', Hd', Hcached. cbv zeta.
    split_and!; try congruence.
    - rewrite Hf. destruct (writeFault cacheKey w) as [err|]; [|done].
      intros e [= <-]. split; [done|]. right. by exists hs, err.
    - destruct (writeFault cacheKey w1); [done|]. by intros hs' [= <-]. }
  pose proof (holderLoop_from_start settings tokenAddress (asked holderLens cacheKey w))
    as HL.
  cbv zeta in HL.
  change (upstream (asked holderLens cacheKey w)) with (upstream w) in HL.
  change (calls (asked holderLens cacheKey w)) with (calls w) in HL.
  destruct (bodyOf (upstream w (calls w) (heliusRequest settings tokenAddress None)))
    as [data1|].
  2:{ destruct HL as [e HL]. rewrite HL. exists [None]. simpl.
      split_and!; try done; try lia.
      intros e' [= <-]. split; [done|]. left. by apply Hnone. }
  destruct (pageOf data1) as [[accounts1 next]|].
  2:{ rewrite HL. exists [None]. simpl fst. simpl snd.
      split; [simpl; lia|]. apply (Hset (materialize [])); try done. simpl. lia. }
  destruct (bodyOf (upstream w (S (calls w)) (heliusRequest settings tokenAddress next)))
    as [data2|].
  2:{ destruct HL as [e HL]. rewrite HL. exists [None; next]. simpl.
      rewrite <- app_assoc. split_and!; try done; try lia.
      intros e' [= <-]. split; [done|]. left. by apply Hnone. }
  rewrite HL. exists [None; next]. simpl fst. simpl snd.
  split; [simpl; lia|]. apply Hset; try done.
  - simpl. by rewrite <- app_assoc.
  - simpl. lia.
Qed.


(** ** DexScreener data *)

Lemma fetchDexScreenerData_shape tokenAddress w :
  let cacheKey := "dexScreenerData_" ++ tokenAddress in
  let r := dexRequest tokenAddress in
  ∃ d w',
    fetchDexScreenerData tokenAddress w = (Ok d, w')
    ∧ upstream w' = upstream w
    ∧ securityStore w' = securityStore w
    ∧ tradeStore w' = tradeStore w
    ∧ holderStore w' = holderStore w
    ∧ (∀ c, cached dexLens cacheKey w = Some c →
         d = c ∧ trace w' = trace w ∧ calls w' = calls w ∧ now w' = now w)
    ∧ (cached dexLens cacheKey w = None →
         trace w' = (trace w ++ [EvFetch r])%list ∧ calls w' = S (calls w)
         ∧ match dexDataOf (bodyOf (upstream w (calls w) r)) with
           | Some found =>
               cached dexLens cacheKey w' = Some found
               ∧ d = match writeFault cacheKey w with
                     | None => found
                     | Some _ => noDexData
                     end
           | None => d = noDexData ∧ cached dexLens cacheKey w' = None
           end).
Proof.
  intros cacheKey r. unfold fetchDexScreenerData. fold cacheKey r.
  unfold bind at 1. rewrite getCachedData_run.
  destruct (cached dexLens cacheKey w) as [c|] eqn:Hc.
  { eexists _, _. split; [reflexivity|]. split_and!; try done.
    by intros c' [= <-]. }
  unfold tryCatch. unfold bind at 1. rewrite fetchJsonOrUndefined_run.
  change (upstream (asked dexLens cacheKey w)) with (upstream w).
  change (calls (asked dexLens cacheKey w)) with (calls w).
  assert (Hnone : cached dexLens cacheKey (sent r (asked dexLens cacheKey w)) = None).
  { unfold cached. simpl.
    destruct (getCachedData_miss_clears cacheKey (now w) (dexStore w) Hc) as [Em Ef].
    by apply no_entry_no_hit. }
  destruct (bodyOf (upstream w (calls w) r)) as [[e|e|[v [ps|]]|b|]|] eqn:E; simpl;
    try (eexists _, _; split; [reflexivity|]; split_and!; try done).
  unfold bind at 1. rewrite setCachedData_run. unfold writeFault. simpl.
  destruct (diskFault w (writes w) cacheKey) as [err|];
    (eexists _, _; split; [reflexivity|]; split_and!; try done;
     intros _; split_and!; try done; cached_set).
Qed.


(** ** Answers from the cache *)

(** A second call right after a successful one is answered from the cache:
    [fetchTokenSecurity], [fetchTokenTradeData] and [fetchHolderList] return
    the same value again without sending a request. *)
Theorem fetch_again_from_cache settings tokenAddress w :
  (∀ d w', fetchTokenSecurity settings tokenAddress w = (Ok d, w') →
     ∃ w'', fetchTokenSecurity settings tokenAddress w' = (Ok d, w'')
            ∧ trace w'' = trace w' ∧ calls w'' = calls w' ∧ now w'' = now w')
  ∧ (∀ d w', fetchTokenTradeData settings tokenAddress w = (Ok d, w') →
       ∃ w'', fetchTokenTradeData settings tokenAddress w' = (Ok d, w'')
              ∧ trace w'' = trace w' ∧ calls w'' = calls w' ∧ now w'' = now w')
  ∧ (∀ hs w', fetchHolderList settings tokenAddress w = (Ok hs, w') →
       ∃ w'', fetchHolderList settings tokenAddress w' = (Ok hs, w'')
              ∧ trace w'' = trace w' ∧ calls w'' = calls w' ∧ now w'' = now w').
Proof.
  split; [|split].
  - intros d w' H. apply fetchTokenSecurity_cached in H.
    eexists. split; [unfold fetchTokenSecurity; unfold bind at 1;
                     by rewrite getCachedData_run, H | done].
  - intros d w' H. apply fetchTokenTradeData_cached in H.
    eexists. split; [unfold fetchTokenTradeData; unfold bind at 1;
                     by rewrite getCachedData_run, H | done].
  - intros hs w' H.
    destruct (fetchHolderList_shape settings tokenAddress w)
      as (cursors & _ & _ & _ & _ & _ & _ & _ & _ & Hok).
    rewrite H in Hok. simpl in Hok. specialize (Hok hs eq_refl).
    eexists. split; [by apply fetchHolderList_hit|done].
Qed.

(** ** Security data *)


(** A malformed answer is not tried again. On a miss of both cache tiers,
    when the first request of [fetchTokenSecurity] succeeds but its JSON is
    not [{success: true, data}], it throws "No token security data
    available" after that single request, without waiting, and caches
    nothing. *)
Theorem fetchTokenSecurity_malformed settings tokenAddress w data :
  let cacheKey := "tokenSecurity_" ++ tokenAddress in
  let r := retryRequest settings (securityUrl tokenAddress) noOptions in
  cached securityLens cacheKey w = None →
  attemptSuccess (upstream w (calls w) r) = Some data →
  (∀ d, data ≠ JsonSecurity {| success := true; payload := Some d |}) →
  ∃ w',
    fetchTokenSecurity settings tokenAddress w
      = (Throw (JsError "No token security data available"), w')
    ∧ trace w' = (trace w ++ [EvFetch r])%list
    ∧ calls w' = S (calls w)
    ∧ cached securityLens cacheKey w' = None.
Proof.
  intros cacheKey r Hmiss Hok Hbad.
  unfold fetchTokenSecurity. fold cacheKey. unfold bind at 1.
  rewrite getCachedData_run, Hmiss. unfold bind at 1. unfold fetchWithRetry.
  change (Z.to_nat PROVIDER_CONFIG.MAX_RETRIES) with 3%nat.
  rewrite (retryFrom_success settings (securityUrl tokenAddress) noOptions _ _ _
             (asked securityLens cacheKey w) data) by exact Hok.
  fold r.
  assert (Hnone : cached securityLens cacheKey (sent r (asked securityLens cacheKey w))
                  = None).
  { unfold cached. simpl.
    destruct (getCachedData_miss_clears cacheKey (now w) (securityStore w) Hmiss)
      as [Em Ef].
    by apply no_entry_no_hit. }
  destruct data as [[[] [p|]]| | | |];
    try (eexists; split; [reflexivity|]; by split_and!).
  by destruct (Hbad p).
Qed.

Lemma fetchTokenSecurity_malformed_witness :
  let cacheKey := "tokenSecurity_" ++ exampleToken in
  let r := retryRequest exampleSettings (securityUrl exampleToken) noOptions in
  let w := freshWorld unsuccessful in
  ∃ w',
    fetchTokenSecurity exampleSettings exampleToken w
      = (Throw (JsError "No token security data available"), w')
    ∧ trace w' = (trace w ++ [EvFetch r])%list
    ∧ calls w' = S (calls w)
    ∧ cached securityLens cacheKey w' = None.
Proof.
  apply (fetchTokenSecurity_malformed exampleSettings exampleToken
           (freshWorld unsuccessful)
           (JsonSecurity {| success := false; payload := None |})).
  - vm_compute. reflexivity.
  - vm_compute. reflexivity.
  - intros d. discriminate.
Defined.

(** ** Holders of a high supply and of a high value *)






Lemma filterHighValueHolders_run settings tokenAddress tradeData w :
  filterHighValueHolders settings tokenAddress tradeData w
  = match fetchHolderList settings tokenAddress w with
    | (Ok hs, w1) =>
        (Ok (map (fun holder =>
                    {| holderAddress := address holder;
                       balanceUsd :=
                         BigNumber.toFixed 2
                           (usdValue (BigNumber.make (price tradeData)) holder) |})
                 (List.filter (isHighValue (BigNumber.make (price tradeData))) hs)), w1)
    | (Throw e, w1) => (Throw e, w1)
    end.
Proof.
  unfold filterHighValueHolders, bind, ret.
  by destruct (fetchHolderList settings tokenAddress w) as [[hs|e] w1].
Qed.







(** ** The composite *)

Section CompositeFacts.
Variable settings : Settings.
Variable tokenAddress : string.

Lemma getProcessedTokenData_run w :
  getProcessedTokenData settings tokenAddress w
  = match fetchTokenSecurity settings tokenAddress w with
    | (Throw e, w1) => (Throw e, w1)
    | (Ok security, w1) =>
      match fetchTokenTradeData settings tokenAddress w1 with
      | (Throw e, w2) => (Throw e, w2)
      | (Ok tradeData, w2) =>
        match fetchDexScreenerData tokenAddress w2 with
        | (Throw e, w3) => (Throw e, w3)
        | (Ok dexData, w3) =>
          match fetchHolderList settings tokenAddress w3 with
          | (Throw e, w4) => (Throw e, w4)
          | (Ok hs, w4) =>
            match countHighSupplyHolders settings tokenAddress security w4 with
            | (Throw e, w5) => (Throw e, w5)
            | (Ok count, w5) => (Ok (compose security tradeData dexData hs count), w5)
            end
          end
        end
      end
    end.
Proof.
  unfold getProcessedTokenData, tryCatch. unfold bind at 1.
  destruct (fetchTokenSecurity settings tokenAddress w) as [[s|e] w1]; [|done].
  unfold bind at 1.
  destruct (fetchTokenTradeData settings tokenAddress w1) as [[td|e] w2]; [|done].
  unfold bind at 1.
  destruct (fetchDexScreenerData tokenAddress w2) as [[d|e] w3]; [|done].
  unfold bind at 1. rewrite filterHighValueHolders_run.
  destruct (fetchHolderList settings tokenAddress w3) as [[hs|e] w4]; [|done].
  unfold bind at 1.
  by destruct (countHighSupplyHolders settings tokenAddress s w4) as [[n|e] w5].
Qed.

End CompositeFacts.

(** [getProcessedTokenData] gives no partial composite: when the security
    fetch fails, or the trade fetch after it, or the holder list fetched for
    the high-value holders, it throws that very error, in the world where
    the failing fetch stopped. *)
Theorem getProcessedTokenData_propagates settings tokenAddress w e w' :
  fetchTokenSecurity settings tokenAddress w = (Throw e, w')
  ∨ (∃ s w1,
       fetchTokenSecurity settings tokenAddress w = (Ok s, w1)
       ∧ fetchTokenTradeData settings tokenAddress w1 = (Throw e, w'))
  ∨ (∃ s w1 td w2,
       fetchTokenSecurity settings tokenAddress w = (Ok s, w1)
       ∧ fetchTokenTradeData settings tokenAddress w1 = (Ok td, w2)
       ∧ fetchHolderList settings tokenAddress
           (snd (fetchDexScreenerData tokenAddress w2)) = (Throw e, w')) →
  getProcessedTokenData settings tokenAddress w = (Throw e, w').
Proof.
  rewrite getProcessedTokenData_run.
  intros [H | [(s & w1 & Hs & H) | (s & w1 & td & w2 & Hs & Ht & H)]].
  - by rewrite H.
  - by rewrite Hs, H.
  - rewrite Hs, Ht.
    destruct (fetchDexScreenerData_shape tokenAddress w2) as (d & w3 & Hd & _).
    rewrite Hd in *. simpl in H. by rewrite H.
Qed.

Lemma getProcessedTokenData_propagates_witness :
  getProcessedTokenData exampleSettings exampleToken (freshWorld unsuccessful)
  = (Throw (JsError "No token security data available"),
     snd (fetchTokenSecurity exampleSettings exampleToken (freshWorld unsuccessful))).
Proof.
  apply (getProcessedTokenData_propagates exampleSettings exampleToken
           (freshWorld unsuccessful)).
  left. vm_compute. reflexivity.
Defined.




(** ** The report *)

Lemma append_assoc (s t u : string) : (s ++ t) ++ u = s ++ t ++ u.
Proof.
  induction s as [|c s IH]; [done|].
  change (String c ((s ++ t) ++ u) = String c (s ++ t ++ u)). by f_equal.
Qed.

Lemma append_nil_r (s : string) : s ++ "" = s.
Proof.
  induction s as [|c s IH]; [done|].
  change (String c (s ++ "") = String c s). by f_equal.
Qed.

Lemma extends_refl (p : string) : extends p p.
Proof. exists "". by rewrite append_nil_r. Qed.

Lemma extends_app (p s t : string) : extends p s → extends p (s ++ t).
Proof. intros [rest ->]. exists (rest ++ t). apply append_assoc. Qed.

Lemma extends_fold_left {A} (f : A → string) (l : list A) (p s : string) :
  extends p s → extends p (fold_left (fun output a => output ++ f a) l s).
Proof.
  revert s. induction l as [|a l IH]; intros s H; simpl; [done|].
  apply IH. by apply extends_app.
Qed.

Lemma formatPairs_complete index ps output :
  forallb complete ps = true →
  ∃ rest, formatPairs index ps output = Ok (output ++ rest).
Proof.
  revert index output. induction ps as [|p ps IH]; intros index output H.
  { exists "". by rewrite append_nil_r. }
  simpl in H. apply andb_prop in H as [Hp Hps]. cbn [formatPairs]. unfold formatPair.
  unfold complete in Hp.
  destruct (volume p) as [| |vol]; try done. destruct (liquidity p) as [| |liq]; try done.
  edestruct (IH (S index)) as [rest Hr]; [exact Hps|]. rewrite Hr.
  eexists. by rewrite append_assoc.
Qed.

Lemma formatPairs_incomplete index ps output :
  forallb complete ps = false →
  ∃ what field,
    (what = "undefined" ∨ what = "null") ∧ (field = "h24" ∨ field = "usd")
    ∧ formatPairs index ps output = Throw (cannotRead what field).
Proof.
  revert index output. induction ps as [|p ps IH]; intros index output H; [done|].
  simpl in H. cbn [formatPairs]. unfold formatPair. unfold complete in H.
  destruct (volume p) as [| |vol].
  { exists "undefined", "h24". split; [by left|]. split; [by left|done]. }
  { exists "null", "h24". split; [by right|]. split; [by left|done]. }
  destruct (liquidity p) as [| |liq].
  { exists "undefined", "usd". split; [by left|]. split; [by right|done]. }
  { exists "null", "usd". split; [by right|]. split; [by right|done]. }
  simpl in H. by apply IH.
Qed.

Ltac extends_header :=
  repeat match goal with
    | |- extends (reportHeader ?a) (if ?b then _ else _) => destruct b
    | |- extends (reportHeader ?a) (fold_left _ _ _) => apply extends_fold_left
    | |- extends (reportHeader ?a) ((_ ++ newline) ++ "Token Address: " ++ _) =>
        exact (extends_refl (reportHeader a))
    | |- extends (reportHeader ?a) (_ ++ _) => apply extends_app
    end.

Lemma formatTokenData_shape tokenAddress data :
  match formatTokenData tokenAddress data with
  | Ok output =>
      (isDexScreenerListed data = false
       ∨ forallb complete (pairs (dexScreenerData data)) = true)
      ∧ extends (reportHeader tokenAddress) output
  | Throw e =>
      isDexScreenerListed data = true
      ∧ forallb complete (pairs (dexScreenerData data)) = false
      ∧ ∃ what field,
          (what = "undefined" ∨ what = "null") ∧ (field = "h24" ∨ field = "usd")
          ∧ e = cannotRead what field
  end.
Proof.
  unfold formatTokenData. cbv zeta.
  destruct (isDexScreenerListed data).
  - destruct (forallb complete (pairs (dexScreenerData data))) eqn:Hc.
    + edestruct (formatPairs_complete 0 (pairs (dexScreenerData data))) as [rest ->];
        [exact Hc|].
      split; [by right|]. extends_header.
    + edestruct (formatPairs_incomplete 0 (pairs (dexScreenerData data)))
        as (what & field & Hw & Hf & ->); [exact Hc|].
      split; [done|]. split; [done|]. by exists what, field.
  - split; [by left|]. extends_header.
Qed.


Lemma getProcessedTokenData_listed settings tokenAddress w p w' :
  getProcessedTokenData settings tokenAddress w = (Ok p, w') →
  isDexScreenerListed p = negb (Nat.eqb (length (pairs (dexScreenerData p))) 0).
Proof.
  rewrite getProcessedTokenData_run.
  destruct (fetchTokenSecurity settings tokenAddress w) as [[s|e] w1]; [|done].
  destruct (fetchTokenTradeData settings tokenAddress w1) as [[td|e] w2]; [|done].
  destruct (fetchDexScreenerData tokenAddress w2) as [[d|e] w3]; [|done].
  destruct (fetchHolderList settings tokenAddress w3) as [[hs|e] w4]; [|done].
  destruct (countHighSupplyHolders settings tokenAddress s w4) as [[n|e] w5]; [|done].
  by intros [= <- _].
Qed.

Lemma apology_is_no_report tokenAddress :
  ¬ extends (reportHeader tokenAddress) unableToFetch.
Proof. intros [rest H]. vm_compute in H. discriminate H. Qed.

(** [getFormattedTokenReport] never throws, and leaves the world as
    [getProcessedTokenData] left it. What it returns is either the apology
    or a text that begins with the title line and the token address; it is
    the apology exactly when [getProcessedTokenData] threw or one of the
    DexScreener pairs it returned has no [volume] or no [liquidity]
    object. *)
Theorem getFormattedTokenReport_never_throws settings tokenAddress w :
  ∃ text,
    getFormattedTokenReport settings tokenAddress w
      = (Ok text, snd (getProcessedTokenData settings tokenAddress w))
    ∧ (text = unableToFetch ∨ extends (reportHeader tokenAddress) text)
    ∧ (text = unableToFetch ↔
         match fst (getProcessedTokenData settings tokenAddress w) with
         | Throw _ => True
         | Ok p => forallb complete (pairs (dexScreenerData p)) = false
         end).
Proof.
  unfold getFormattedTokenReport, tryCatch, bind, liftResult, ret.
  destruct (getProcessedTokenData settings tokenAddress w) as [[p|e] w'] eqn:Hp; simpl.
  2:{ exists unableToFetch. split; [done|]. split; [by left|done]. }
  pose proof (getProcessedTokenData_listed _ _ _ _ _ Hp) as Hl.
  pose proof (formatTokenData_shape tokenAddress p) as Hf.
  destruct (formatTokenData tokenAddress p) as [text|e].
  - exists text. split; [done|]. destruct Hf as [Hok Hext]. split; [by right|]. split.
    + intros ->. by destruct (apology_is_no_report tokenAddress).
    + intros Hc. destruct Hok as [Hok|Hok]; [|congruence].
      rewrite Hl in Hok. destruct (pairs (dexScreenerData p)); done.
  - exists unableToFetch. split; [done|]. split; [by left|]. by destruct Hf as (_ & ? & _).
Qed.

(** ** Reading the cache again *)

(** A value the cache answers with is truthy, the files are as they were,
    and asking once more at the same instant gives the same answer. A miss
    stays a miss for as long as nothing is written: no read at that or a
    later instant finds the key. *)
Theorem getCachedData_settles {V} (truthy : V → bool) cacheKey time time'
    (st : Cache.TwoTier V) :
  time ≤ time' →
  let st' := snd (Cache.getCachedData truthy time cacheKey st) in
  match fst (Cache.getCachedData truthy time cacheKey st) with
  | Some v =>
      truthy v = true
      ∧ Cache.files st' = Cache.files st
      ∧ fst (Cache.getCachedData truthy time cacheKey st') = Some v
  | None => fst (Cache.getCachedData truthy time' cacheKey st') = None
  end.
Proof.
  intros Hle st'. subst st'.
  assert (Hmiss : ∀ mem fs,
    Cache.isTruthy truthy (fst (Cache.NodeCache_get time' cacheKey mem)) = false →
    Cache.isTruthy truthy (fst (Cache.readCacheFromFile time' cacheKey fs)) = false →
    fst (Cache.getCachedData truthy time' cacheKey
           {| Cache.memory := mem; Cache.files := fs |}) = None).
  { intros mem fs Hm Hfs. unfold Cache.getCachedData. simpl.
    destruct (Cache.NodeCache_get time' cacheKey mem) as [o mem1]. simpl in Hm.
    rewrite Hm.
    destruct (Cache.readCacheFromFile time' cacheKey fs) as [o' fs1]. simpl in Hfs.
    by rewrite Hfs. }
  assert (Hmem : ∀ mem,
    mem !! cacheKey = None ∨
      (∃ e, mem !! cacheKey = Some e ∧ truthy (Cache.m_value e) = false) →
    Cache.isTruthy truthy (fst (Cache.NodeCache_get time' cacheKey mem)) = false).
  { intros mem Hm. unfold Cache.NodeCache_get.
    destruct Hm as [-> | (e & -> & He)]; [done|].
    destruct (Cache.m_t e <? time'); simpl; [done|exact He]. }
  assert (Hfile : ∀ mem,
    mem !! cacheKey = None ∨
      (∃ e, mem !! cacheKey = Some e ∧ truthy (Cache.m_value e) = false) →
    match Cache.readCacheFromFile time cacheKey (Cache.files st) with
    | (Some d, fs1) =>
        if truthy d
        then fs1 = Cache.files st
             ∧ fst (Cache.getCachedData truthy time cacheKey
                      {| Cache.memory := Cache.NodeCache_set time cacheKey d mem;
                         Cache.files := fs1 |}) = Some d
        else fst (Cache.getCachedData truthy time' cacheKey
                    {| Cache.memory := mem; Cache.files := fs1 |}) = None
    | (None, fs1) =>
        fst (Cache.getCachedData truthy time' cacheKey
               {| Cache.memory := mem; Cache.files := fs1 |}) = None
    end).
  { intros mem Hm. specialize (Hmem mem Hm).
    unfold Cache.readCacheFromFile at 1.
    destruct (Cache.files st !! cacheKey) as [f|] eqn:Ef.
    - destruct (Z.ltb_spec time (Cache.expiry f)) as [Hlive|Hdead].
      + destruct (truthy (Cache.data f)) eqn:Hd.
        * split; [done|].
          unfold Cache.getCachedData, Cache.NodeCache_get, Cache.NodeCache_set. simpl.
          rewrite lookup_insert_eq. simpl. unfold Cache.stdTTL.
          destruct (Z.ltb_spec (time + 300 * 1000) time); [lia|]. simpl. by rewrite Hd.
        * apply Hmiss; [done|]. unfold Cache.readCacheFromFile. rewrite Ef.
          destruct (time' <? Cache.expiry f); simpl; [exact Hd|done].
      + apply Hmiss; [done|]. unfold Cache.readCacheFromFile. by rewrite lookup_delete_eq.
    - apply Hmiss; [done|]. unfold Cache.readCacheFromFile. by rewrite Ef. }
  destruct (Cache.getCachedData truthy time cacheKey st) as [o st1] eqn:HG. simpl.
  unfold Cache.getCachedData, Cache.NodeCache_get in HG.
  assert (Hrest : ∀ mem,
    mem !! cacheKey = None ∨
      (∃ e, mem !! cacheKey = Some e ∧ truthy (Cache.m_value e) = false) →
    (let '(fileCachedData, fs1) :=
       Cache.readCacheFromFile time cacheKey (Cache.files st) in
     if Cache.isTruthy truthy fileCachedData
     then match fileCachedData with
          | Some d => (Some d, {| Cache.memory := Cache.NodeCache_set time cacheKey d mem;
                                  Cache.files := fs1 |})
          | None => (None, {| Cache.memory := mem; Cache.files := fs1 |})
          end
     else (None, {| Cache.memory := mem; Cache.files := fs1 |})) = (o, st1) →
    match o with
    | Some v =>
        truthy v = true ∧ Cache.files st1 = Cache.files st
        ∧ fst (Cache.getCachedData truthy time cacheKey st1) = Some v
    | None => fst (Cache.getCachedData truthy time' cacheKey st1) = None
    end).
  { intros mem Hm. specialize (Hfile mem Hm).
    destruct (Cache.readCacheFromFile time cacheKey (Cache.files st)) as [[d|] fs1];
      simpl.
    - destruct (truthy d) eqn:Hd; intros [= <- <-]; [|exact Hfile].
      destruct Hfile as [-> Hagain]. done.
    - intros [= <- <-]. exact Hfile. }
  destruct (Cache.memory st !! cacheKey) as [e|] eqn:Em.
  - destruct (Z.ltb_spec (Cache.m_t e) time) as [Hdead|Hlive]; simpl in HG.
    + apply (Hrest (delete cacheKey (Cache.memory st))); [|exact HG].
      left. apply lookup_delete_eq.
    + destruct (truthy (Cache.m_value e)) eqn:He.
      * injection HG as <- <-. split; [done|]. split; [done|].
        unfold Cache.getCachedData, Cache.NodeCache_get. simpl. rewrite Em.
        destruct (Z.ltb_spec (Cache.m_t e) time); [lia|]. simpl. by rewrite He.
      * apply (Hrest (Cache.memory st)); [|exact HG]. right. by exists e.
  - simpl in HG. apply (Hrest (Cache.memory st)); [|exact HG]. by left.
Qed.

Lemma getCachedData_settles_witness :
  fst (Cache.getCachedData nonEmpty 500000 "holderList_mint"
         (snd (Cache.getCachedData nonEmpty 400000 "holderList_mint"
                 (stored 0 "holderList_mint" "holders" emptyStore)))) = None.
Proof.
  apply (getCachedData_settles nonEmpty "holderList_mint" 400000 500000
           (stored 0 "holderList_mint" "holders" emptyStore)).
  lia.
Defined.

(** ** A provider for every call *)



Section ColdFetchers.
Variable settings : Settings.
Variable tokenAddress : string.






End ColdFetchers.

Section FromFiles.
Variable settings : Settings.
Variable tokenAddress : string.




End FromFiles.



